(** * SmartAPI streaming clients: a shallow embedding

    The market-data stream client ([src/lib/WebSocket.ts]) and the
    order-status stream client ([src/lib/OrderStatusWebSocket.ts]) are
    embedded as state-passing functions over a record that holds the
    fields of the TypeScript object next to the part of the environment
    the object talks to (the sockets it created, the events it emitted,
    the console, the armed reconnect timers).

    Conventions of the embedding:
    - a JavaScript exception is a [Throw] completion, [try]/[catch] is
      [try_catch];
    - JavaScript objects used as records with optional fields and [Map]s
      are insertion-ordered association lists ([JsMap]);
    - JavaScript numbers that hold integers or scaled prices are exact
      rationals ([Q], kept in lowest terms); the rounding of IEEE doubles
      is not modelled, and a value read with [readDoubleLE] is kept as its
      64-bit pattern;
    - event listeners are assumed to be attached and not to throw. *)

From Stdlib Require Import ZArith List String Ascii Bool Lia QArith
  DecimalString PeanoNat.
Import ListNotations.

Open Scope Z_scope.

(** ** Completions: normal return or thrown exception *)

Inductive Exn : Type :=
| ERR_OUT_OF_RANGE (offset : nat)
| SyntaxError.

Inductive Completion (A : Type) : Type :=
| Normal (a : A)
| Throw (e : Exn).

Arguments Normal {A} a.
Arguments Throw {A} e.

Definition bind {A B : Type} (c : Completion A) (k : A -> Completion B)
  : Completion B :=
  match c with
  | Normal a => k a
  | Throw e => Throw e
  end.

Definition fmap {A B : Type} (f : A -> B) (c : Completion A) : Completion B :=
  bind c (fun a => Normal (f a)).

Definition try_catch {A : Type} (body : Completion A)
  (handler : Exn -> Completion A) : Completion A :=
  match body with
  | Normal a => Normal a
  | Throw e => handler e
  end.

Declare Scope completion_scope.
Delimit Scope completion_scope with completion.
Notation "x <- c ;; k" := (bind c (fun x => k))
  (at level 61, c at next level, right associativity) : completion_scope.
Notation "' pat <- c ;; k" := (bind c (fun x => match x with pat => k end))
  (at level 61, pat pattern, c at next level, right associativity)
  : completion_scope.

(** ** Keys with a boolean equality *)

Class KeyEq (K : Type) : Type := {
  keqb : K -> K -> bool;
  keqb_eq : forall a b : K, keqb a b = true <-> a = b
}.

#[export] Instance string_KeyEq : KeyEq string :=
  {| keqb := String.eqb; keqb_eq := String.eqb_eq |}.

#[export] Instance Z_KeyEq : KeyEq Z :=
  {| keqb := Z.eqb; keqb_eq := Z.eqb_eq |}.

(** ** Insertion-ordered maps

    A JavaScript [Map] (and an object with string keys) iterates in the
    order in which the keys were first inserted; [set] on a key that is
    present replaces the value where it stands. *)

Module JsMap.
Section Defs.
Context {K V : Type} `{KeyEq K}.

Definition t : Type := list (K * V).

Definition empty : t := [].

Fixpoint get (k : K) (m : t) : option V :=
  match m with
  | [] => None
  | (k', v) :: m' => if keqb k k' then Some v else get k m'
  end.

Definition has (k : K) (m : t) : bool :=
  match get k m with
  | Some _ => true
  | None => false
  end.

Fixpoint set (k : K) (v : V) (m : t) : t :=
  match m with
  | [] => [(k, v)]
  | (k', v') :: m' =>
      if keqb k k' then (k, v) :: m' else (k', v') :: set k v m'
  end.

Fixpoint delete (k : K) (m : t) : t :=
  match m with
  | [] => []
  | (k', v') :: m' =>
      if keqb k k' then m' else (k', v') :: delete k m'
  end.

Definition keys (m : t) : list K := map fst m.
Definition values (m : t) : list V := map snd m.
Definition entries (m : t) : list (K * V) := m.
Definition size (m : t) : nat := List.length m.
End Defs.
Arguments t : clear implicits.
End JsMap.

(** [m.get(k).push(x)] after [if (!m.has(k)) m.set(k, [])]: the idiom by
    which the client groups subscriptions. *)
Definition push_group {K A : Type} `{KeyEq K} (k : K) (x : A)
  (m : JsMap.t K (list A)) : JsMap.t K (list A) :=
  let m1 := if JsMap.has k m then m else JsMap.set k [] m in
  match JsMap.get k m1 with
  | Some l => JsMap.set k (l ++ [x]) m1
  | None => m1
  end.

(** ** Node.js [Buffer] reads *)

Module Buffer.
Definition t : Type := list Byte.byte.

Definition length (data : t) : nat := List.length data.

Definition byte_value (b : Byte.byte) : Z := Z.of_N (Byte.to_N b).

(** Value of a little-endian byte string. *)
Fixpoint le_value (bs : list Byte.byte) : Z :=
  match bs with
  | [] => 0
  | b :: rest => byte_value b + 256 * le_value rest
  end.

(** Two's complement reading of an unsigned [bits]-bit value. *)
Definition to_signed (bits : Z) (u : Z) : Z :=
  if u <? 2 ^ (bits - 1) then u else u - 2 ^ bits.

(** Every read checks [offset + width <= length] and throws
    ERR_OUT_OF_RANGE otherwise. *)
Definition readUIntLE (data : t) (offset width : nat) : Completion Z :=
  if (offset + width <=? length data)%nat
  then Normal (le_value (firstn width (skipn offset data)))
  else Throw (ERR_OUT_OF_RANGE offset).

Definition readUInt8 (data : t) (offset : nat) : Completion Z :=
  readUIntLE data offset 1.

Definition readInt8 (data : t) (offset : nat) : Completion Z :=
  fmap (to_signed 8) (readUIntLE data offset 1).

Definition readInt16LE (data : t) (offset : nat) : Completion Z :=
  fmap (to_signed 16) (readUIntLE data offset 2).

Definition readInt32LE (data : t) (offset : nat) : Completion Z :=
  fmap (to_signed 32) (readUIntLE data offset 4).

Definition readBigInt64LE (data : t) (offset : nat) : Completion Z :=
  fmap (to_signed 64) (readUIntLE data offset 8).

(** The 64-bit pattern of the double; its IEEE value is not interpreted. *)
Definition readDoubleLE (data : t) (offset : nat) : Completion Z :=
  readUIntLE data offset 8.

(** Writers, used to build frames. *)
Definition byte_of_Z (z : Z) : Byte.byte :=
  match Byte.of_N (Z.to_N (z mod 256)) with
  | Some b => b
  | None => Byte.x00
  end.

Fixpoint le_bytes (width : nat) (z : Z) : list Byte.byte :=
  match width with
  | O => []
  | S w => byte_of_Z z :: le_bytes w (z / 256)
  end.

Definition zeros (n : nat) : t := repeat Byte.x00 n.
End Buffer.

(** Decimal rendering of an integer, as a template literal does it. *)
Definition string_of_Z (z : Z) : string :=
  NilZero.string_of_int (Z.to_int z).

Definition string_of_nat (n : nat) : string := string_of_Z (Z.of_nat n).

(** ** Enumerations of [WebSocket.ts] *)

Inductive FeedMode : Type := LTP | QUOTE | SNAP_QUOTE | DEPTH_20.

Definition FeedMode_code (m : FeedMode) : Z :=
  match m with
  | LTP => 1
  | QUOTE => 2
  | SNAP_QUOTE => 3
  | DEPTH_20 => 4
  end.

Inductive ExchangeType : Type :=
| NSE_CM | NSE_FO | BSE_CM | BSE_FO | MCX_FO | NCX_FO | CDE_FO.

Definition ExchangeType_code (e : ExchangeType) : Z :=
  match e with
  | NSE_CM => 1
  | NSE_FO => 2
  | BSE_CM => 3
  | BSE_FO => 4
  | MCX_FO => 5
  | NCX_FO => 7
  | CDE_FO => 13
  end.

Inductive Action : Type := UNSUBSCRIBE | SUBSCRIBE.

Definition FeedMode_eqb (a b : FeedMode) : bool :=
  FeedMode_code a =? FeedMode_code b.

Definition ExchangeType_eqb (a b : ExchangeType) : bool :=
  ExchangeType_code a =? ExchangeType_code b.

Lemma FeedMode_eqb_eq (a b : FeedMode) : FeedMode_eqb a b = true <-> a = b.
Proof. destruct a, b; cbv; split; congruence. Qed.

Lemma ExchangeType_eqb_eq (a b : ExchangeType) :
  ExchangeType_eqb a b = true <-> a = b.
Proof. destruct a, b; cbv; split; congruence. Qed.

#[export] Instance FeedMode_KeyEq : KeyEq FeedMode :=
  {| keqb := FeedMode_eqb; keqb_eq := FeedMode_eqb_eq |}.

#[export] Instance ExchangeType_KeyEq : KeyEq ExchangeType :=
  {| keqb := ExchangeType_eqb; keqb_eq := ExchangeType_eqb_eq |}.

(** ** Ticks: the object built by [parseBinaryMessage] *)

Record DepthEntry : Type := {
  quantity : Z;
  price : Q;
  numOrders : Z
}.

Inductive Value : Type :=
| VNum (q : Q)                     (* a number holding an integer or a scaled price *)
| VBigInt (z : Z)                  (* a BigInt *)
| VDouble (bits : Z)               (* a number read with readDoubleLE *)
| VStr (s : string)
| VEntries (l : list DepthEntry).  (* an array of depth entries *)

Definition Tick : Type := JsMap.t string Value.

Module Decoder.
Import Buffer.
Local Open Scope string_scope.
Local Open Scope Z_scope.
Local Open Scope completion_scope.

Definition num (z : Z) : Value := VNum (inject_Z z).

(** The token loop: up to 25 bytes from offset 2, stopping at a zero
    byte. [i] is the loop counter, [n] the iterations left. *)
Fixpoint readToken (data : Buffer.t) (i n : nat) (token : string)
  : Completion string :=
  match n with
  | O => Normal token
  | S n' =>
      charCode <- readUInt8 data (2 + i) ;;
      if charCode =? 0 then Normal token
      else readToken data (S i) n'
             (token ++ String (ascii_of_N (Z.to_N charCode)) EmptyString)
  end.

(** [if (data.length >= n) tick.k = read]. *)
Definition field (data : Buffer.t) (n : nat) (k : string)
  (read : Completion Value) (tick : Tick) : Completion Tick :=
  if (n <=? length data)%nat
  then v <- read ;; Normal (JsMap.set k v tick)
  else Normal tick.

Definition int32 (data : Buffer.t) (offset : nat) : Completion Value :=
  fmap num (readInt32LE data offset).

Definition int64 (data : Buffer.t) (offset : nat) : Completion Value :=
  fmap num (readBigInt64LE data offset).

Definition double (data : Buffer.t) (offset : nat) : Completion Value :=
  fmap VDouble (readDoubleLE data offset).

(** Fields shared by the QUOTE and SNAP_QUOTE layouts (offsets 43..123). *)
Definition quoteFields (data : Buffer.t) (tick : Tick) : Completion Tick :=
  tick <- field data 51 "lastTradedPrice" (int32 data 43) tick ;;
  tick <- field data 59 "lastTradedQuantity" (int64 data 51) tick ;;
  tick <- field data 67 "averageTradedPrice" (int64 data 59) tick ;;
  tick <- field data 75 "volumeTradedForTheDay" (int64 data 67) tick ;;
  tick <- field data 83 "totalBuyQuantity" (double data 75) tick ;;
  tick <- field data 91 "totalSellQuantity" (double data 83) tick ;;
  tick <- field data 99 "openPrice" (int64 data 91) tick ;;
  tick <- field data 107 "highPrice" (int64 data 99) tick ;;
  tick <- field data 115 "lowPrice" (int64 data 107) tick ;;
  field data 123 "closePrice" (int64 data 115) tick.

(** The best-five loop of SNAP_QUOTE: ten 20-byte packets from offset
    147, each pushed on the bid or the ask side by its flag. *)
Fixpoint bestFive (data : Buffer.t) (idx : list nat)
  (bids asks : list DepthEntry)
  : Completion (list DepthEntry * list DepthEntry) :=
  match idx with
  | [] => Normal (bids, asks)
  | i :: rest =>
      let offset := (147 + i * 20)%nat in
      flag <- readInt16LE data offset ;;
      quantity <- readBigInt64LE data (offset + 2) ;;
      price <- readBigInt64LE data (offset + 10) ;;
      numOrders <- readInt16LE data (offset + 18) ;;
      let entry := {| quantity := quantity; price := inject_Z price;
                      numOrders := numOrders |} in
      if flag =? 1
      then bestFive data rest (bids ++ [entry])%list asks
      else bestFive data rest bids (asks ++ [entry])%list
  end.

(** One side of the DEPTH_20 book: twenty 10-byte packets from [base]. *)
Fixpoint depthSide (data : Buffer.t) (base : nat) (idx : list nat)
  (side : list DepthEntry) : Completion (list DepthEntry) :=
  match idx with
  | [] => Normal side
  | i :: rest =>
      let offset := (base + i * 10)%nat in
      quantity <- readInt32LE data offset ;;
      price <- readInt32LE data (offset + 4) ;;
      numOrders <- readInt16LE data (offset + 8) ;;
      depthSide data base rest
        (side ++ [{| quantity := quantity; price := inject_Z price;
                     numOrders := numOrders |}])%list
  end.

Definition snapQuoteFields (data : Buffer.t) (tick : Tick)
  : Completion Tick :=
  tick <- quoteFields data tick ;;
  tick <- field data 131 "lastTradedTimestamp" (int64 data 123) tick ;;
  tick <- field data 139 "openInterest" (int64 data 131) tick ;;
  tick <- field data 147 "openInterestChangePercent" (double data 139) tick ;;
  tick <- (if (347 <=? length data)%nat
           then
             ' (bids, asks) <- bestFive data (seq 0 10) [] [] ;;
             Normal (JsMap.set "bestAsks" (VEntries asks)
                       (JsMap.set "bestBids" (VEntries bids) tick))
           else Normal tick) ;;
  tick <- field data 355 "upperCircuitLimit" (int64 data 347) tick ;;
  tick <- field data 363 "lowerCircuitLimit" (int64 data 355) tick ;;
  tick <- field data 371 "fiftyTwoWeekHighPrice" (int64 data 363) tick ;;
  field data 379 "fiftyTwoWeekLowPrice" (int64 data 371) tick.

Definition depth20Fields (data : Buffer.t) (exchangeType : Z) (tick : Tick)
  : Completion Tick :=
  if (exchangeType =? ExchangeType_code NSE_CM)
     && (443 <=? length data)%nat
  then
    tick <- field data 35 "exchangeTimestamp" (int64 data 27) tick ;;
    tick <- field data 43 "dummyPlaceholder" (int64 data 35) tick ;;
    bids <- depthSide data 43 (seq 0 20) [] ;;
    asks <- depthSide data 243 (seq 0 20) [] ;;
    Normal (JsMap.set "bestAsks" (VEntries asks)
              (JsMap.set "bestBids" (VEntries bids) tick))
  else Normal tick.

(** What the emission step needs of a parsed frame: the local variables
    [exchangeType] and [token], and the tick object. *)
Record Parsed : Type := {
  p_exchangeType : Z;
  p_token : string;
  p_tick : Tick
}.

(** Raw extraction: everything of [parseBinaryMessage] up to the
    normalisation of prices. *)
Definition extract (data : Buffer.t) : Completion Parsed :=
  mode <- readInt8 data 0 ;;
  exchangeType <- readInt8 data 1 ;;
  token <- readToken data 0 25 "" ;;
  let tick : Tick :=
    [("mode", num mode); ("exchangeType", num exchangeType);
     ("token", VStr token)] in
  tick <- field data 35 "sequenceNumber"
            (fmap VBigInt (readBigInt64LE data 27)) tick ;;
  tick <- field data 43 "exchangeTimestamp" (int64 data 35) tick ;;
  tick <- (if mode =? FeedMode_code LTP then
             field data 51 "lastTradedPrice" (int32 data 43) tick
           else if mode =? FeedMode_code QUOTE then quoteFields data tick
           else if mode =? FeedMode_code SNAP_QUOTE then
             snapQuoteFields data tick
           else if mode =? FeedMode_code DEPTH_20 then
             depth20Fields data exchangeType tick
           else Normal tick) ;;
  Normal {| p_exchangeType := exchangeType; p_token := token;
            p_tick := tick |}.

(** [x / divisor] on a number. *)
Definition scale (divisor : Z) (q : Q) : Q :=
  Qred (q / inject_Z divisor)%Q.

Definition divide (divisor : Z) (v : Value) : Value :=
  match v with
  | VNum q => VNum (scale divisor q)
  | _ => v
  end.

(** [if (tick.k !== undefined) tick.k = tick.k / divisor]. *)
Definition normalizeField (divisor : Z) (k : string) (tick : Tick) : Tick :=
  match JsMap.get k tick with
  | Some v => JsMap.set k (divide divisor v) tick
  | None => tick
  end.

Definition normalizeEntry (divisor : Z) (e : DepthEntry) : DepthEntry :=
  {| quantity := quantity e; price := scale divisor (price e);
     numOrders := numOrders e |}.

(** [if (tick.k) tick.k.forEach(e => e.price = e.price / divisor)]. *)
Definition normalizeSide (divisor : Z) (k : string) (tick : Tick) : Tick :=
  match JsMap.get k tick with
  | Some (VEntries l) =>
      JsMap.set k (VEntries (map (normalizeEntry divisor) l)) tick
  | _ => tick
  end.

Definition divisorFor (exchangeType : Z) : Z :=
  if exchangeType =? ExchangeType_code CDE_FO then 10000000 else 100.

Definition priceFields : list string :=
  ["lastTradedPrice"; "openPrice"; "highPrice"; "lowPrice"; "closePrice";
   "upperCircuitLimit"; "lowerCircuitLimit"; "fiftyTwoWeekHighPrice";
   "fiftyTwoWeekLowPrice"].

Definition sideFields : list string := ["bestBids"; "bestAsks"].

(** The normalisation block: entered only when the tick has a last
    traded price. *)
Definition normalize (exchangeType : Z) (tick : Tick) : Tick :=
  match JsMap.get "lastTradedPrice" tick with
  | Some _ =>
      let divisor := divisorFor exchangeType in
      let tick := fold_left (fun t k => normalizeField divisor k t)
                    priceFields tick in
      fold_left (fun t k => normalizeSide divisor k t) sideFields tick
  | None => tick
  end.

(** The tick that [parseBinaryMessage] emits for [data]. *)
Definition decode (data : Buffer.t) : Completion Parsed :=
  p <- extract data ;;
  Normal {| p_exchangeType := p_exchangeType p; p_token := p_token p;
            p_tick := normalize (p_exchangeType p) (p_tick p) |}.
End Decoder.

(** ** The market-data stream client ([SmartAPIWebSocket]) *)

Module MarketData.
Local Open Scope string_scope.
Local Open Scope Z_scope.

Inductive ConnectionState : Type :=
| CONNECTING | CONNECTED | DISCONNECTING | DISCONNECTED | ERROR.

Record SubscriptionData : Type := {
  correlationId : string;
  exchangeType : ExchangeType;
  token : string;
  feedMode : FeedMode
}.

(** An element of [symbols] in the batched calls. *)
Record Symbol : Type := {
  s_exchangeType : ExchangeType;
  s_token : string
}.

(** An element of [tokenList]. *)
Record TokenGroup : Type := {
  g_exchangeType : ExchangeType;
  tokens : list string
}.

Record WebSocketRequest : Type := {
  correlationID : string;
  action : Action;
  mode : FeedMode;
  tokenList : list TokenGroup
}.

(** The [ws] library, as far as the client uses it. *)
Inductive ReadyState : Type := WS_CONNECTING | WS_OPEN | WS_CLOSING | WS_CLOSED.

Inductive Frame : Type :=
| PingFrame                               (* ws.send('ping') *)
| RequestFrame (r : WebSocketRequest).    (* ws.send(JSON.stringify(request)) *)

(** A socket created by [connect]. Its four listeners stay attached for
    its whole life; [thenResubscribe] records that the promise of the
    [connect] call that created it carries [.then(() => resubscribe())]. *)
Record Socket : Type := {
  readyState : ReadyState;
  sent : list Frame;
  closeCalls : nat;
  thenResubscribe : bool
}.

(** The fields of a parsed text frame that the message handler inspects. *)
Record TextMessage : Type := {
  errorCode : option string;
  errorMessage : option string
}.

Inductive Payload : Type :=
| NoPayload
| TickPayload (tick : Tick)
| LimitError (code message correlation : string)
| ServerMessage (m : TextMessage)
| TransportError
| CloseInfo (code : Z) (reason : string)
| UserDisconnect                          (* { reason: 'User initiated disconnect' } *)
| Attempt (n : nat).

Record Event : Type := {
  channel : string;
  payload : Payload
}.

(** The object and, below the line, the environment it acts on. *)
Record Client : Type := {
  ws : option nat;
  connectionState : ConnectionState;
  subscriptions : JsMap.t string SubscriptionData;
  reconnectAttempts : nat;
  heartbeatInterval : bool;
  debug : bool;
  pendingSubscriptions : list SubscriptionData;
  (* ------------------------------------------------------------ *)
  sockets : list Socket;          (* every socket created so far, by index *)
  emitted : list Event;           (* calls of this.emit, oldest first *)
  console : list string;          (* lines written by this.log *)
  reconnectTimers : nat;          (* armed setTimeout callbacks of attemptReconnect *)
  constructorThrows : bool        (* whether new WebSocket(...) throws *)
}.

Definition maxReconnectAttempts : nat := 5.
Definition reconnectInterval : Z := 5000.

(** The object right after its constructor. *)
Definition new (debug : bool) : Client :=
  {| ws := None; connectionState := DISCONNECTED; subscriptions := [];
     reconnectAttempts := 0; heartbeatInterval := false; debug := debug;
     pendingSubscriptions := []; sockets := []; emitted := [];
     console := []; reconnectTimers := 0; constructorThrows := false |}.

Definition set_ws (v : option nat) (st : Client) : Client :=
  {| ws := v; connectionState := connectionState st; subscriptions :=
  subscriptions st; reconnectAttempts := reconnectAttempts st;
  heartbeatInterval := heartbeatInterval st; debug := debug st;
  pendingSubscriptions := pendingSubscriptions st; sockets := sockets st;
  emitted := emitted st; console := console st; reconnectTimers :=
  reconnectTimers st; constructorThrows := constructorThrows st |}.

Definition set_connectionState (v : ConnectionState) (st : Client) : Client :=
  {| ws := ws st; connectionState := v; subscriptions := subscriptions st;
  reconnectAttempts := reconnectAttempts st; heartbeatInterval :=
  heartbeatInterval st; debug := debug st; pendingSubscriptions :=
  pendingSubscriptions st; sockets := sockets st; emitted := emitted st;
  console := console st; reconnectTimers := reconnectTimers st;
  constructorThrows := constructorThrows st |}.

Definition set_subscriptions (v : JsMap.t string SubscriptionData) (st : Client) : Client :=
  {| ws := ws st; connectionState := connectionState st; subscriptions :=
  v; reconnectAttempts := reconnectAttempts st; heartbeatInterval :=
  heartbeatInterval st; debug := debug st; pendingSubscriptions :=
  pendingSubscriptions st; sockets := sockets st; emitted := emitted st;
  console := console st; reconnectTimers := reconnectTimers st;
  constructorThrows := constructorThrows st |}.

Definition set_reconnectAttempts (v : nat) (st : Client) : Client :=
  {| ws := ws st; connectionState := connectionState st; subscriptions :=
  subscriptions st; reconnectAttempts := v; heartbeatInterval :=
  heartbeatInterval st; debug := debug st; pendingSubscriptions :=
  pendingSubscriptions st; sockets := sockets st; emitted := emitted st;
  console := console st; reconnectTimers := reconnectTimers st;
  constructorThrows := constructorThrows st |}.

Definition set_heartbeatInterval (v : bool) (st : Client) : Client :=
  {| ws := ws st; connectionState := connectionState st; subscriptions :=
  subscriptions st; reconnectAttempts := reconnectAttempts st;
  heartbeatInterval := v; debug := debug st; pendingSubscriptions :=
  pendingSubscriptions st; sockets := sockets st; emitted := emitted st;
  console := console st; reconnectTimers := reconnectTimers st;
  constructorThrows := constructorThrows st |}.

Definition set_pendingSubscriptions (v : list SubscriptionData) (st : Client) : Client :=
  {| ws := ws st; connectionState := connectionState st; subscriptions :=
  subscriptions st; reconnectAttempts := reconnectAttempts st;
  heartbeatInterval := heartbeatInterval st; debug := debug st;
  pendingSubscriptions := v; sockets := sockets st; emitted := emitted st;
  console := console st; reconnectTimers := reconnectTimers st;
  constructorThrows := constructorThrows st |}.

Definition set_sockets (v : list Socket) (st : Client) : Client :=
  {| ws := ws st; connectionState := connectionState st; subscriptions :=
  subscriptions st; reconnectAttempts := reconnectAttempts st;
  heartbeatInterval := heartbeatInterval st; debug := debug st;
  pendingSubscriptions := pendingSubscriptions st; sockets := v; emitted
  := emitted st; console := console st; reconnectTimers := reconnectTimers
  st; constructorThrows := constructorThrows st |}.

Definition set_emitted (v : list Event) (st : Client) : Client :=
  {| ws := ws st; connectionState := connectionState st; subscriptions :=
  subscriptions st; reconnectAttempts := reconnectAttempts st;
  heartbeatInterval := heartbeatInterval st; debug := debug st;
  pendingSubscriptions := pendingSubscriptions st; sockets := sockets st;
  emitted := v; console := console st; reconnectTimers := reconnectTimers
  st; constructorThrows := constructorThrows st |}.

Definition set_console (v : list string) (st : Client) : Client :=
  {| ws := ws st; connectionState := connectionState st; subscriptions :=
  subscriptions st; reconnectAttempts := reconnectAttempts st;
  heartbeatInterval := heartbeatInterval st; debug := debug st;
  pendingSubscriptions := pendingSubscriptions st; sockets := sockets st;
  emitted := emitted st; console := v; reconnectTimers := reconnectTimers
  st; constructorThrows := constructorThrows st |}.

Definition set_reconnectTimers (v : nat) (st : Client) : Client :=
  {| ws := ws st; connectionState := connectionState st; subscriptions :=
  subscriptions st; reconnectAttempts := reconnectAttempts st;
  heartbeatInterval := heartbeatInterval st; debug := debug st;
  pendingSubscriptions := pendingSubscriptions st; sockets := sockets st;
  emitted := emitted st; console := console st; reconnectTimers := v;
  constructorThrows := constructorThrows st |}.

(** The object right after its constructor, where [new WebSocket(...)]
    throws (as the [ws] package does when bundled for a browser). *)
Definition newWithoutSockets (debug : bool) : Client :=
  {| ws := None; connectionState := DISCONNECTED; subscriptions := [];
     reconnectAttempts := 0; heartbeatInterval := false; debug := debug;
     pendingSubscriptions := []; sockets := []; emitted := [];
     console := []; reconnectTimers := 0; constructorThrows := true |}.

Definition ConnectionState_eqb (a b : ConnectionState) : bool :=
  match a, b with
  | CONNECTING, CONNECTING | CONNECTED, CONNECTED
  | DISCONNECTING, DISCONNECTING | DISCONNECTED, DISCONNECTED
  | ERROR, ERROR => true
  | _, _ => false
  end.

Definition isOpen (r : ReadyState) : bool :=
  match r with
  | WS_OPEN => true
  | _ => false
  end.

(** *** Environment primitives *)

Fixpoint update_nth {A : Type} (n : nat) (f : A -> A) (l : list A) : list A :=
  match l, n with
  | [], _ => []
  | x :: l', O => f x :: l'
  | x :: l', S n' => x :: update_nth n' f l'
  end.

Definition update_socket (id : nat) (f : Socket -> Socket) (st : Client)
  : Client :=
  set_sockets (update_nth id f (sockets st)) st.

Definition set_readyState (r : ReadyState) (s : Socket) : Socket :=
  {| readyState := r; sent := sent s; closeCalls := closeCalls s;
     thenResubscribe := thenResubscribe s |}.

(** [ws.send(frame)] on an open socket. *)
Definition ws_send (id : nat) (frame : Frame) (st : Client) : Client :=
  update_socket id
    (fun s => {| readyState := readyState s; sent := sent s ++ [frame];
                 closeCalls := closeCalls s;
                 thenResubscribe := thenResubscribe s |}) st.

(** [ws.close()]: the call is counted and a socket that is not closed
    yet starts closing. *)
Definition ws_close (id : nat) (st : Client) : Client :=
  update_socket id
    (fun s => {| readyState := match readyState s with
                               | WS_CLOSED => WS_CLOSED
                               | _ => WS_CLOSING
                               end;
                 sent := sent s; closeCalls := S (closeCalls s);
                 thenResubscribe := thenResubscribe s |}) st.

Definition socketOpen (id : nat) (st : Client) : bool :=
  match nth_error (sockets st) id with
  | Some s => isOpen (readyState s)
  | None => false
  end.

(** *** Private helpers of the class *)

Definition log (message : string) (st : Client) : Client :=
  if debug st
  then set_console (console st ++ ["[SmartAPIWebSocket] " ++ message]) st
  else st.

Definition emit (name : string) (p : Payload) (st : Client) : Client :=
  set_emitted (emitted st ++ [{| channel := name; payload := p |}]) st.

Definition clearHeartbeat (st : Client) : Client :=
  if heartbeatInterval st then set_heartbeatInterval false st else st.

Definition setupHeartbeat (st : Client) : Client :=
  set_heartbeatInterval true (clearHeartbeat st).

Definition getSubscriptionKey (exchangeType : Z) (token : string) : string :=
  string_of_Z exchangeType ++ ":" ++ token.

Definition keyOf (sub : SubscriptionData) : string :=
  getSubscriptionKey (ExchangeType_code (exchangeType sub)) (token sub).

Definition symbolKey (symbol : Symbol) : string :=
  getSubscriptionKey (ExchangeType_code (s_exchangeType symbol))
    (s_token symbol).

(** Number of tokens of a request that count against the DEPTH_20 limit. *)
Definition nseCmTokenCount (tokenList : list TokenGroup) : nat :=
  fold_left
    (fun totalTokens item =>
       if ExchangeType_eqb (g_exchangeType item) NSE_CM
       then (totalTokens + List.length (tokens item))%nat
       else totalTokens)
    tokenList 0%nat.

Definition sendSubscriptionRequest (correlationId : string)
  (feedMode : FeedMode) (tokenList : list TokenGroup) (action : Action)
  (st : Client) : Client :=
  match ws st with
  | None => log "Cannot send request - WebSocket not connected" st
  | Some id =>
      if negb (socketOpen id st)
      then log "Cannot send request - WebSocket not connected" st
      else if FeedMode_eqb feedMode DEPTH_20
              && (50 <? nseCmTokenCount tokenList)%nat
      then
        emit "error"
          (LimitError "E1002"
             "Invalid Request. Subscription Limit Exceeded." correlationId)
          (log "Error: Depth20 mode has a limit of 50 tokens per connection"
             st)
      else
        let request :=
          {| correlationID := correlationId; action := action;
             mode := feedMode;
             tokenList :=
               map (fun item =>
                      {| g_exchangeType := g_exchangeType item;
                         tokens := tokens item |}) tokenList |} in
        ws_send id (RequestFrame request) (log "Sending request" st)
  end.

(** [Array.from(exchangeTokens.entries()).map(...)]. *)
Definition toTokenList (exchangeTokens : JsMap.t ExchangeType (list string))
  : list TokenGroup :=
  map (fun '(exchangeType, tokens) =>
         {| g_exchangeType := exchangeType; tokens := tokens |})
    (JsMap.entries exchangeTokens).

(** *** processPendingSubscriptions *)

(** First loop: group the queue by [`${sub.feedMode}`]. *)
Definition groupByMode (pending : list SubscriptionData)
  : JsMap.t string (list SubscriptionData) :=
  fold_left
    (fun groups sub =>
       push_group (string_of_Z (FeedMode_code (feedMode sub))) sub groups)
    pending [].

(** The loop over one group does two things per entry: it pushes the
    token on the list of its exchange and it saves the entry in the
    registry. *)
Definition groupByExchange (subs : list SubscriptionData)
  : JsMap.t ExchangeType (list string) :=
  fold_left
    (fun exchangeTokens sub =>
       push_group (exchangeType sub) (token sub) exchangeTokens)
    subs [].

Definition saveAll (subs : list SubscriptionData)
  (registry : JsMap.t string SubscriptionData)
  : JsMap.t string SubscriptionData :=
  fold_left (fun registry sub => JsMap.set (keyOf sub) sub registry)
    subs registry.

Definition processGroup (now : Z) (st : Client)
  (group : string * list SubscriptionData) : Client :=
  let '(groupKey, subs) := group in
  match subs with
  | [] => st                       (* a group is created with its first entry *)
  | first :: _ =>
      let correlationId :=
        "pending-" ++ groupKey ++ "-" ++ string_of_Z now in
      let feedMode := feedMode first in
      let exchangeTokens := groupByExchange subs in
      let st := set_subscriptions (saveAll subs (subscriptions st)) st in
      sendSubscriptionRequest correlationId feedMode
        (toTokenList exchangeTokens) SUBSCRIBE st
  end.

(** [now] is the value of [Date.now()]. *)
Definition processPendingSubscriptions (now : Z) (st : Client) : Client :=
  if (List.length (pendingSubscriptions st) =? 0)%nat then st
  else
    let st :=
      log ("Processing "
           ++ string_of_nat (List.length (pendingSubscriptions st))
           ++ " pending subscriptions") st in
    let subscriptionGroups := groupByMode (pendingSubscriptions st) in
    let st :=
      fold_left (processGroup now) (JsMap.entries subscriptionGroups) st in
    set_pendingSubscriptions [] st.

(** *** resubscribe *)

Definition groupByModeAndExchange (subs : list SubscriptionData)
  : JsMap.t FeedMode (JsMap.t ExchangeType (list string)) :=
  fold_left
    (fun subscriptionsByMode subscription =>
       let feedMode := feedMode subscription in
       let byMode :=
         if JsMap.has feedMode subscriptionsByMode
         then subscriptionsByMode
         else JsMap.set feedMode [] subscriptionsByMode in
       match JsMap.get feedMode byMode with
       | Some exchangeMap =>
           JsMap.set feedMode
             (push_group (exchangeType subscription) (token subscription)
                exchangeMap) byMode
       | None => byMode
       end)
    subs [].

(** [l.slice(i, j)] for [i <= j]. *)
Definition slice {A : Type} (i j : nat) (l : list A) : list A :=
  firstn (j - i) (skipn i l).

(** The requests of the DEPTH_20 branch, as (batch id, token list). The
    [for] loop runs for i = 0, 50, 100, ... below the length. *)
Definition depth20Requests (nseCmTokens : list string)
  : list (string * list TokenGroup) :=
  if (50 <? List.length nseCmTokens)%nat then
    map (fun j =>
           ("resubscribe-depth20-" ++ string_of_nat j,
            [{| g_exchangeType := NSE_CM;
                tokens := slice (j * 50) (j * 50 + 50) nseCmTokens |}]))
      (seq 0 ((List.length nseCmTokens + 49) / 50)%nat)
  else if (0 <? List.length nseCmTokens)%nat then
    [("resubscribe-depth20",
      [{| g_exchangeType := NSE_CM; tokens := nseCmTokens |}])]
  else [].

Definition batchSize : nat := 200.

(** The inner [while]: take exchanges off the front of [tokenList] until
    the batch holds [batchSize] tokens. When an exchange has to be split,
    [splice] leaves the remainder at the front and the count reaches
    [batchSize], which ends the loop. Returns what is left of
    [tokenList] and the batch. *)
Fixpoint takeBatch (tokenList batch : list TokenGroup)
  (totalTokenCount : nat) : list TokenGroup * list TokenGroup :=
  match tokenList with
  | [] => (tokenList, batch)
  | exchange :: rest =>
      if (totalTokenCount <? batchSize)%nat then
        if (List.length (tokens exchange) + totalTokenCount <=? batchSize)%nat
        then
          takeBatch rest (batch ++ [exchange])
            (totalTokenCount + List.length (tokens exchange))
        else
          let n := (batchSize - totalTokenCount)%nat in
          ({| g_exchangeType := g_exchangeType exchange;
              tokens := skipn n (tokens exchange) |} :: rest,
           batch ++ [{| g_exchangeType := g_exchangeType exchange;
                        tokens := firstn n (tokens exchange) |}])%list
      else (tokenList, batch)
  end.

(** The outer [while], with [fuel] bounding its iterations. *)
Fixpoint batchLoop (fuel : nat) (mode : FeedMode)
  (tokenList : list TokenGroup) (batchCounter : nat)
  : list (string * list TokenGroup) :=
  match fuel with
  | O => []
  | S fuel' =>
      match tokenList with
      | [] => []
      | _ :: _ =>
          let '(tokenList', batch) := takeBatch tokenList [] 0 in
          match batch with
          | [] => batchLoop fuel' mode tokenList' batchCounter
          | _ :: _ =>
              ("resubscribe-mode" ++ string_of_Z (FeedMode_code mode)
                 ++ "-" ++ string_of_nat batchCounter, batch)
                :: batchLoop fuel' mode tokenList' (S batchCounter)
          end
      end
  end.

(** Every iteration of either loop removes an exchange or at least one
    token, so this many iterations are enough. *)
Definition batchFuel (tokenList : list TokenGroup) : nat :=
  fold_right (fun g n => S (List.length (tokens g) + n)) 0%nat tokenList.

Definition otherRequests (mode : FeedMode) (tokenList : list TokenGroup)
  : list (string * list TokenGroup) :=
  batchLoop (batchFuel tokenList) mode tokenList 0.

Definition requestsFor (mode : FeedMode)
  (exchangeMap : JsMap.t ExchangeType (list string))
  : list (string * list TokenGroup) :=
  if FeedMode_eqb mode DEPTH_20 then
    depth20Requests
      (if JsMap.has NSE_CM exchangeMap
       then match JsMap.get NSE_CM exchangeMap with
            | Some l => l
            | None => []
            end
       else [])
  else otherRequests mode (toTokenList exchangeMap).

Definition sendAll (mode : FeedMode)
  (requests : list (string * list TokenGroup)) (st : Client) : Client :=
  fold_left
    (fun st '(batchId, batch) =>
       sendSubscriptionRequest batchId mode batch SUBSCRIBE st)
    requests st.

Definition resubscribe (st : Client) : Client :=
  if (JsMap.size (subscriptions st) =? 0)%nat then st
  else
    let st :=
      log ("Resubscribing to "
           ++ string_of_nat (JsMap.size (subscriptions st)) ++ " symbols")
        st in
    let subscriptionsByMode :=
      groupByModeAndExchange (JsMap.values (subscriptions st)) in
    fold_left
      (fun st '(mode, exchangeMap) =>
         sendAll mode (requestsFor mode exchangeMap) st)
      (JsMap.entries subscriptionsByMode) st.

(** *** connect and the socket listeners *)

Definition newSocket (thenResubscribe : bool) : Socket :=
  {| readyState := WS_CONNECTING; sent := []; closeCalls := 0;
     thenResubscribe := thenResubscribe |}.

(** [connect()]. The promise it returns is settled by the listeners of
    the socket it creates; [continuation] tells whether the caller
    chained [.then(() => this.resubscribe())] on it (only the reconnect
    timer does). *)
Definition connect (continuation : bool) (st : Client) : Client :=
  let st := log "Connecting to WebSocket server" st in
  if ConnectionState_eqb (connectionState st) CONNECTED then
    let st := log "Already connected" st in
    (* resolve(true) *)
    if continuation then resubscribe st else st
  else
    let st := set_connectionState CONNECTING st in
    if constructorThrows st then
      let st := log "Failed to create WebSocket connection" st in
      let st := set_connectionState ERROR st in
      emit "error" TransportError st          (* reject(error) *)
    else
      let id := List.length (sockets st) in
      let st := set_sockets (sockets st ++ [newSocket continuation]) st in
      set_ws (Some id) st.

Definition attemptReconnect (st : Client) : Client :=
  if (maxReconnectAttempts <=? reconnectAttempts st)%nat then
    emit "reconnect_failed" NoPayload
      (log "Maximum reconnect attempts reached" st)
  else
    let st := set_reconnectAttempts (S (reconnectAttempts st)) st in
    let st :=
      log ("Attempting to reconnect ("
           ++ string_of_nat (reconnectAttempts st) ++ "/"
           ++ string_of_nat maxReconnectAttempts ++ ")") st in
    let st := emit "reconnecting" (Attempt (reconnectAttempts st)) st in
    (* setTimeout(..., this.reconnectInterval) *)
    set_reconnectTimers (S (reconnectTimers st)) st.

(** The callback of the reconnect timer. *)
Definition reconnectTimerFired (st : Client) : Client :=
  connect true (set_reconnectTimers (pred (reconnectTimers st)) st).

(** The callback of the heartbeat interval. *)
Definition heartbeatFired (st : Client) : Client :=
  match ws st with
  | Some id =>
      if socketOpen id st
      then ws_send id PingFrame (log "Sending heartbeat" st)
      else st
  | None => st
  end.

(** The ['open'] listener of socket [id]. *)
Definition onOpen (id : nat) (now : Z) (st : Client) : Client :=
  let st := set_connectionState CONNECTED st in
  let st := log "WebSocket connected" st in
  let st := set_reconnectAttempts 0 st in
  let st := setupHeartbeat st in
  let st := processPendingSubscriptions now st in
  let st := emit "connected" NoPayload st in
  (* resolve(true) *)
  match nth_error (sockets st) id with
  | Some s => if thenResubscribe s then resubscribe st else st
  | None => st
  end.

(** The ['error'] listener. *)
Definition onError (st : Client) : Client :=
  let st := log "WebSocket error" st in
  let st := set_connectionState ERROR st in
  emit "error" TransportError st.             (* reject(error) *)

(** The ['close'] listener. *)
Definition onClose (code : Z) (reason : string) (st : Client) : Client :=
  let st := log "WebSocket closed" st in
  let st := clearHeartbeat st in
  let st := set_connectionState DISCONNECTED st in
  let st := emit "disconnect" (CloseInfo code reason) st in
  attemptReconnect st.

(** *** parseBinaryMessage *)

Definition parseBinaryMessage (data : Buffer.t) (st : Client)
  : Completion Client :=
  try_catch
    (bind (Decoder.decode data) (fun p =>
       let tick := Decoder.p_tick p in
       let st := log "Parsed tick data" st in
       let st := emit "tick" (TickPayload tick) st in
       let key :=
         getSubscriptionKey (Decoder.p_exchangeType p) (Decoder.p_token p) in
       match JsMap.get key (subscriptions st) with
       | Some subscription =>
           Normal (emit ("tick:" ++ correlationId subscription)
                     (TickPayload tick) st)
       | None => Normal st
       end))
    (fun error => Normal (log "Error parsing binary message:" st)).

(** *** The public operations *)

Record ApiResponse : Type := {
  status : bool;
  message : string
}.

(** How the promise returned by an operation is settled. *)
Inductive Outcome : Type :=
| Resolved (r : ApiResponse)
| Rejected (r : ApiResponse).

Definition subscribe (correlationId : string) (exchangeType : ExchangeType)
  (token : string) (feedMode : FeedMode) (st : Client) : Client * Outcome :=
  if FeedMode_eqb feedMode DEPTH_20
     && negb (ExchangeType_eqb exchangeType NSE_CM)
  then
    (st, Rejected {| status := false;
                     message := "20-Depth Mode is available only for NSE_CM segment" |})
  else if negb (ConnectionState_eqb (connectionState st) CONNECTED) then
    let st := log "Not connected yet, queuing subscription" st in
    let st :=
      set_pendingSubscriptions
        (pendingSubscriptions st
           ++ [{| correlationId := correlationId;
                  exchangeType := exchangeType; token := token;
                  feedMode := feedMode |}]) st in
    let st :=
      if ConnectionState_eqb (connectionState st) DISCONNECTED
      then connect false st
      else st in
    (st, Resolved {| status := true; message := "Subscription queued" |})
  else
    let key := getSubscriptionKey (ExchangeType_code exchangeType) token in
    let st :=
      set_subscriptions
        (JsMap.set key
           {| correlationId := correlationId; exchangeType := exchangeType;
              token := token; feedMode := feedMode |}
           (subscriptions st)) st in
    let st :=
      sendSubscriptionRequest correlationId feedMode
        [{| g_exchangeType := exchangeType; tokens := [token] |}]
        SUBSCRIBE st in
    (st, Resolved {| status := true;
                     message := "Subscription request sent" |}).

(** The entry [subscribeMultiple] stores for one symbol. *)
Definition batchEntry (correlationId : string) (feedMode : FeedMode)
  (symbol : Symbol) : SubscriptionData :=
  {| correlationId :=
       correlationId ++ "-"
         ++ string_of_Z (ExchangeType_code (s_exchangeType symbol))
         ++ "-" ++ s_token symbol;
     exchangeType := s_exchangeType symbol;
     token := s_token symbol;
     feedMode := feedMode |}.

Definition groupSymbols (symbols : list Symbol)
  : JsMap.t ExchangeType (list string) :=
  fold_left
    (fun exchangeTokens symbol =>
       push_group (s_exchangeType symbol) (s_token symbol) exchangeTokens)
    symbols [].

Definition subscribeMultiple (correlationId : string)
  (symbols : list Symbol) (feedMode : FeedMode) (st : Client)
  : Client * Outcome :=
  if FeedMode_eqb feedMode DEPTH_20
     && existsb (fun s => negb (ExchangeType_eqb (s_exchangeType s) NSE_CM))
          symbols
  then
    (st, Rejected {| status := false;
                     message := "20-Depth Mode is available only for NSE_CM segment" |})
  else if FeedMode_eqb feedMode DEPTH_20
          && (50 <? List.length symbols)%nat
  then
    (st, Rejected {| status := false;
                     message := "For 20-Depth Mode, the maximum limit is 50 tokens per connection" |})
  else if negb (ConnectionState_eqb (connectionState st) CONNECTED) then
    let st := log "Not connected yet, queuing multiple subscriptions" st in
    let st :=
      fold_left
        (fun st symbol =>
           set_pendingSubscriptions
             (pendingSubscriptions st
                ++ [batchEntry correlationId feedMode symbol]) st)
        symbols st in
    let st :=
      if ConnectionState_eqb (connectionState st) DISCONNECTED
      then connect false st
      else st in
    (st, Resolved {| status := true;
                     message := "Multiple subscriptions queued" |})
  else
    let st :=
      fold_left
        (fun st symbol =>
           set_subscriptions
             (JsMap.set (symbolKey symbol)
                (batchEntry correlationId feedMode symbol)
                (subscriptions st)) st)
        symbols st in
    let tokenList := toTokenList (groupSymbols symbols) in
    let st :=
      sendSubscriptionRequest correlationId feedMode tokenList SUBSCRIBE st in
    (st, Resolved {| status := true;
                     message := "Multiple subscription request sent" |}).

Definition unsubscribe (correlationId : string)
  (exchangeType : ExchangeType) (token : string) (st : Client)
  : Client * Outcome :=
  if negb (ConnectionState_eqb (connectionState st) CONNECTED) then
    (st, Rejected {| status := false;
                     message := "WebSocket is not connected" |})
  else
    let key := getSubscriptionKey (ExchangeType_code exchangeType) token in
    let st :=
      if JsMap.has key (subscriptions st) then st
      else log "Unsubscription warning - not explicitly subscribed" st in
    let st :=
      sendSubscriptionRequest correlationId LTP
        [{| g_exchangeType := exchangeType; tokens := [token] |}]
        UNSUBSCRIBE st in
    let st := set_subscriptions (JsMap.delete key (subscriptions st)) st in
    (st, Resolved {| status := true;
                     message := "Unsubscription request sent" |}).

Definition unsubscribeMultiple (correlationId : string)
  (symbols : list Symbol) (st : Client) : Client * Outcome :=
  if negb (ConnectionState_eqb (connectionState st) CONNECTED) then
    (st, Rejected {| status := false;
                     message := "WebSocket is not connected" |})
  else
    let st :=
      fold_left
        (fun st symbol =>
           set_subscriptions
             (JsMap.delete (symbolKey symbol) (subscriptions st)) st)
        symbols st in
    let tokenList := toTokenList (groupSymbols symbols) in
    let st :=
      sendSubscriptionRequest correlationId LTP tokenList UNSUBSCRIBE st in
    (st, Resolved {| status := true;
                     message := "Multiple unsubscription request sent" |}).

Definition disconnect (st : Client) : Client :=
  if ConnectionState_eqb (connectionState st) DISCONNECTED then
    log "Already disconnected" st
  else
    let st := log "Disconnecting" st in
    let st := set_connectionState DISCONNECTING st in
    let st := clearHeartbeat st in
    let st := set_pendingSubscriptions [] st in
    match ws st with
    | Some id =>
        let st := set_subscriptions [] st in
        let st := ws_close id st in
        let st := set_ws None st in
        let st := set_connectionState DISCONNECTED st in
        emit "disconnect" UserDisconnect st
    | None => st
    end.

(** *** The message listener and the event loop *)

Inductive WsData : Type :=
| Text (s : string)
| Binary (data : Buffer.t).

Definition truthy (o : option string) : bool :=
  match o with
  | Some s => negb (s =? "")%string
  | None => false
  end.

(** What reaches the object: calls of its user and events of the
    sockets and timers it created. *)
Inductive Input : Type :=
| CallConnect
| CallDisconnect
| CallSubscribe (correlationId : string) (exchangeType : ExchangeType)
    (token : string) (feedMode : FeedMode)
| CallSubscribeMultiple (correlationId : string) (symbols : list Symbol)
    (feedMode : FeedMode)
| CallUnsubscribe (correlationId : string) (exchangeType : ExchangeType)
    (token : string)
| CallUnsubscribeMultiple (correlationId : string) (symbols : list Symbol)
| SocketOpen (id : nat) (now : Z)
| SocketMessage (id : nat) (data : WsData)
| SocketError (id : nat)
| SocketClose (id : nat) (code : Z) (reason : string)
| ReconnectTimer
| HeartbeatTimer.

Definition socketState (id : nat) (st : Client) : option ReadyState :=
  option_map readyState (nth_error (sockets st) id).

(** Which events the environment can deliver: a socket opens once,
    while it is connecting; it delivers messages while open; until it is
    closed it can report an error (closing a socket that is still
    connecting does) and it closes once, also after [close()] was called
    on it; a timer fires only while armed. Calls are always possible. *)
Definition enabled (i : Input) (st : Client) : bool :=
  match i with
  | SocketOpen id _ =>
      match socketState id st with
      | Some WS_CONNECTING => true
      | _ => false
      end
  | SocketMessage id _ =>
      match socketState id st with
      | Some WS_OPEN => true
      | _ => false
      end
  | SocketError id =>
      match socketState id st with
      | Some WS_CLOSED | None => false
      | Some _ => true
      end
  | SocketClose id _ _ =>
      match socketState id st with
      | Some WS_CLOSED | None => false
      | Some _ => true
      end
  | ReconnectTimer => (0 <? reconnectTimers st)%nat
  | HeartbeatTimer => heartbeatInterval st
  | _ => true
  end.

Section EventLoop.
(** [JSON.parse], restricted to the fields the listener reads; it
    throws on text that is not JSON. *)
Variable JSON_parse : string -> Completion TextMessage.

(** The ['message'] listener. *)
Definition onMessage (data : WsData) (st : Client) : Completion Client :=
  try_catch
    (match data with
     | Text s =>
         if (s =? "pong")%string
         then Normal (log "Received heartbeat response" st)
         else
           try_catch
             (bind (JSON_parse s) (fun message =>
                if truthy (errorCode message)
                   || truthy (errorMessage message)
                then Normal (emit "error" (ServerMessage message)
                               (log "Received error" st))
                else Normal (emit "message" (ServerMessage message)
                               (log "Received text message" st))))
             (fun e => Normal (log "Unknown text message" st))
     | Binary data => parseBinaryMessage data st
     end)
    (fun e => Normal (log "Failed to process WebSocket message" st)).

(** One turn of the event loop. An exception that leaves a listener
    would reach the event loop; the state is then left as it was. *)
Definition step (st : Client) (i : Input) : Client :=
  match i with
  | CallConnect => connect false st
  | CallDisconnect => disconnect st
  | CallSubscribe c e t m => fst (subscribe c e t m st)
  | CallSubscribeMultiple c s m => fst (subscribeMultiple c s m st)
  | CallUnsubscribe c e t => fst (unsubscribe c e t st)
  | CallUnsubscribeMultiple c s => fst (unsubscribeMultiple c s st)
  | SocketOpen id now =>
      onOpen id now (update_socket id (set_readyState WS_OPEN) st)
  | SocketMessage id data =>
      match onMessage data st with
      | Normal st' => st'
      | Throw _ => st
      end
  | SocketError id =>
      onError (update_socket id (set_readyState WS_CLOSING) st)
  | SocketClose id code reason =>
      onClose code reason (update_socket id (set_readyState WS_CLOSED) st)
  | ReconnectTimer => reconnectTimerFired st
  | HeartbeatTimer => heartbeatFired st
  end.

(** A run of the event loop; [None] when the environment cannot
    deliver one of the events. *)
Fixpoint run (st : Client) (inputs : list Input) : option Client :=
  match inputs with
  | [] => Some st
  | i :: rest =>
      if enabled i st then run (step st i) rest else None
  end.
End EventLoop.
End MarketData.

(** ** The order-status stream client ([OrderStatusWebSocket]) *)

Module OrderStatus.
Local Open Scope string_scope.
Local Open Scope Z_scope.

Inductive ConnectionState : Type :=
| CONNECTING | CONNECTED | DISCONNECTING | DISCONNECTED | ERROR.

(** [OrderStatusCode.CONNECTED]. *)
Definition OrderStatusCode_CONNECTED : string := "AB00".

(** Of the order fields only [orderid] is read by the client. *)
Record OrderStatusData : Type := {
  orderid : string
}.

Record OrderStatusResponse : Type := {
  user_id : string;               (* 'user-id' *)
  status_code : string;           (* 'status-code' *)
  order_status : string;          (* 'order-status' *)
  error_message : string;         (* 'error-message' *)
  orderData : option OrderStatusData
}.

Inductive ReadyState : Type := WS_CONNECTING | WS_OPEN | WS_CLOSING | WS_CLOSED.

(** A socket created by [connect], with the Authorization header it was
    opened with and the number of pings sent on it. *)
Record Socket : Type := {
  readyState : ReadyState;
  authorization : string;
  pings : nat;
  closeCalls : nat
}.

Inductive Payload : Type :=
| NoPayload
| ErrorInfo (code message : string)
| TransportError
| OrderMessage (m : OrderStatusResponse)
| CloseInfo (code : Z) (reason : string)
| UserDisconnect
| Attempt (n : nat).

Record Event : Type := {
  channel : string;
  payload : Payload
}.

Record Client : Type := {
  jwtToken : string;
  ws : option nat;
  connectionState : ConnectionState;
  reconnectAttempts : nat;
  heartbeatInterval : bool;
  pingInterval : bool;
  debug : bool;
  clientCode : string;
  (* ------------------------------------------------------------ *)
  sockets : list Socket;
  emitted : list Event;
  console : list string;
  reconnectTimers : nat;
  constructorThrows : bool
}.

Definition maxReconnectAttempts : nat := 5.
Definition reconnectInterval : Z := 5000.

Definition new (jwtToken : string) (debug : bool) : Client :=
  {| jwtToken := jwtToken; ws := None; connectionState := DISCONNECTED;
     reconnectAttempts := 0; heartbeatInterval := false;
     pingInterval := false; debug := debug; clientCode := "";
     sockets := []; emitted := []; console := []; reconnectTimers := 0;
     constructorThrows := false |}.

Definition set_jwtToken (v : string) (st : Client) : Client :=
  {| jwtToken := v; ws := ws st; connectionState := connectionState st;
  reconnectAttempts := reconnectAttempts st; heartbeatInterval :=
  heartbeatInterval st; pingInterval := pingInterval st; debug := debug
  st; clientCode := clientCode st; sockets := sockets st; emitted :=
  emitted st; console := console st; reconnectTimers := reconnectTimers
  st; constructorThrows := constructorThrows st |}.

Definition set_ws (v : option nat) (st : Client) : Client :=
  {| jwtToken := jwtToken st; ws := v; connectionState := connectionState
  st; reconnectAttempts := reconnectAttempts st; heartbeatInterval :=
  heartbeatInterval st; pingInterval := pingInterval st; debug := debug
  st; clientCode := clientCode st; sockets := sockets st; emitted :=
  emitted st; console := console st; reconnectTimers := reconnectTimers
  st; constructorThrows := constructorThrows st |}.

Definition set_connectionState (v : ConnectionState) (st : Client) : Client :=
  {| jwtToken := jwtToken st; ws := ws st; connectionState := v;
  reconnectAttempts := reconnectAttempts st; heartbeatInterval :=
  heartbeatInterval st; pingInterval := pingInterval st; debug := debug
  st; clientCode := clientCode st; sockets := sockets st; emitted :=
  emitted st; console := console st; reconnectTimers := reconnectTimers
  st; constructorThrows := constructorThrows st |}.

Definition set_reconnectAttempts (v : nat) (st : Client) : Client :=
  {| jwtToken := jwtToken st; ws := ws st; connectionState :=
  connectionState st; reconnectAttempts := v; heartbeatInterval :=
  heartbeatInterval st; pingInterval := pingInterval st; debug := debug
  st; clientCode := clientCode st; sockets := sockets st; emitted :=
  emitted st; console := console st; reconnectTimers := reconnectTimers
  st; constructorThrows := constructorThrows st |}.

Definition set_heartbeatInterval (v : bool) (st : Client) : Client :=
  {| jwtToken := jwtToken st; ws := ws st; connectionState :=
  connectionState st; reconnectAttempts := reconnectAttempts st;
  heartbeatInterval := v; pingInterval := pingInterval st; debug := debug
  st; clientCode := clientCode st; sockets := sockets st; emitted :=
  emitted st; console := console st; reconnectTimers := reconnectTimers
  st; constructorThrows := constructorThrows st |}.

Definition set_pingInterval (v : bool) (st : Client) : Client :=
  {| jwtToken := jwtToken st; ws := ws st; connectionState :=
  connectionState st; reconnectAttempts := reconnectAttempts st;
  heartbeatInterval := heartbeatInterval st; pingInterval := v; debug :=
  debug st; clientCode := clientCode st; sockets := sockets st; emitted :=
  emitted st; console := console st; reconnectTimers := reconnectTimers
  st; constructorThrows := constructorThrows st |}.

Definition set_clientCode (v : string) (st : Client) : Client :=
  {| jwtToken := jwtToken st; ws := ws st; connectionState :=
  connectionState st; reconnectAttempts := reconnectAttempts st;
  heartbeatInterval := heartbeatInterval st; pingInterval := pingInterval
  st; debug := debug st; clientCode := v; sockets := sockets st; emitted
  := emitted st; console := console st; reconnectTimers := reconnectTimers
  st; constructorThrows := constructorThrows st |}.

Definition set_sockets (v : list Socket) (st : Client) : Client :=
  {| jwtToken := jwtToken st; ws := ws st; connectionState :=
  connectionState st; reconnectAttempts := reconnectAttempts st;
  heartbeatInterval := heartbeatInterval st; pingInterval := pingInterval
  st; debug := debug st; clientCode := clientCode st; sockets := v;
  emitted := emitted st; console := console st; reconnectTimers :=
  reconnectTimers st; constructorThrows := constructorThrows st |}.

Definition set_emitted (v : list Event) (st : Client) : Client :=
  {| jwtToken := jwtToken st; ws := ws st; connectionState :=
  connectionState st; reconnectAttempts := reconnectAttempts st;
  heartbeatInterval := heartbeatInterval st; pingInterval := pingInterval
  st; debug := debug st; clientCode := clientCode st; sockets := sockets
  st; emitted := v; console := console st; reconnectTimers :=
  reconnectTimers st; constructorThrows := constructorThrows st |}.

Definition set_console (v : list string) (st : Client) : Client :=
  {| jwtToken := jwtToken st; ws := ws st; connectionState :=
  connectionState st; reconnectAttempts := reconnectAttempts st;
  heartbeatInterval := heartbeatInterval st; pingInterval := pingInterval
  st; debug := debug st; clientCode := clientCode st; sockets := sockets
  st; emitted := emitted st; console := v; reconnectTimers :=
  reconnectTimers st; constructorThrows := constructorThrows st |}.

Definition set_reconnectTimers (v : nat) (st : Client) : Client :=
  {| jwtToken := jwtToken st; ws := ws st; connectionState :=
  connectionState st; reconnectAttempts := reconnectAttempts st;
  heartbeatInterval := heartbeatInterval st; pingInterval := pingInterval
  st; debug := debug st; clientCode := clientCode st; sockets := sockets
  st; emitted := emitted st; console := console st; reconnectTimers := v;
  constructorThrows := constructorThrows st |}.

Definition ConnectionState_eqb (a b : ConnectionState) : bool :=
  match a, b with
  | CONNECTING, CONNECTING | CONNECTED, CONNECTED
  | DISCONNECTING, DISCONNECTING | DISCONNECTED, DISCONNECTED
  | ERROR, ERROR => true
  | _, _ => false
  end.

Definition update_socket (id : nat) (f : Socket -> Socket) (st : Client)
  : Client :=
  set_sockets (MarketData.update_nth id f (sockets st)) st.

Definition set_readyState (r : ReadyState) (s : Socket) : Socket :=
  {| readyState := r; authorization := authorization s; pings := pings s;
     closeCalls := closeCalls s |}.

Definition ws_ping (id : nat) (st : Client) : Client :=
  update_socket id
    (fun s => {| readyState := readyState s;
                 authorization := authorization s; pings := S (pings s);
                 closeCalls := closeCalls s |}) st.

Definition ws_close (id : nat) (st : Client) : Client :=
  update_socket id
    (fun s => {| readyState := match readyState s with
                               | WS_CLOSED => WS_CLOSED
                               | _ => WS_CLOSING
                               end;
                 authorization := authorization s; pings := pings s;
                 closeCalls := S (closeCalls s) |}) st.

Definition socketState (id : nat) (st : Client) : option ReadyState :=
  option_map readyState (nth_error (sockets st) id).

Definition log (message : string) (st : Client) : Client :=
  if debug st
  then set_console (console st ++ ["[OrderStatusWebSocket] " ++ message]) st
  else st.

Definition emit (name : string) (p : Payload) (st : Client) : Client :=
  set_emitted (emitted st ++ [{| channel := name; payload := p |}]) st.

Definition clearHeartbeat (st : Client) : Client :=
  let st := if heartbeatInterval st then set_heartbeatInterval false st
            else st in
  if pingInterval st then set_pingInterval false st else st.

Definition setupHeartbeat (st : Client) : Client :=
  set_pingInterval true (clearHeartbeat st).

Definition connect (st : Client) : Client :=
  let st := log "Connecting to Order Status WebSocket server" st in
  if ConnectionState_eqb (connectionState st) CONNECTED then
    log "Already connected" st                (* resolve(true) *)
  else
    let st := set_connectionState CONNECTING st in
    if constructorThrows st then
      let st := log "Failed to create WebSocket connection" st in
      let st := set_connectionState ERROR st in
      emit "error" TransportError st          (* reject(error) *)
    else
      let id := List.length (sockets st) in
      let socket :=
        {| readyState := WS_CONNECTING;
           authorization := "Bearer " ++ jwtToken st;
           pings := 0; closeCalls := 0 |} in
      set_ws (Some id) (set_sockets (sockets st ++ [socket]) st).

Definition attemptReconnect (st : Client) : Client :=
  if (maxReconnectAttempts <=? reconnectAttempts st)%nat then
    emit "reconnect_failed" NoPayload
      (log "Maximum reconnect attempts reached" st)
  else
    let st := set_reconnectAttempts (S (reconnectAttempts st)) st in
    let st :=
      log ("Attempting to reconnect ("
           ++ string_of_nat (reconnectAttempts st) ++ "/"
           ++ string_of_nat maxReconnectAttempts ++ ")") st in
    let st := emit "reconnecting" (Attempt (reconnectAttempts st)) st in
    set_reconnectTimers (S (reconnectTimers st)) st.

Definition reconnectTimerFired (st : Client) : Client :=
  connect (set_reconnectTimers (pred (reconnectTimers st)) st).

Definition pingFired (st : Client) : Client :=
  match ws st with
  | Some id =>
      match socketState id st with
      | Some WS_OPEN => ws_ping id (log "Sending ping" st)
      | _ => st
      end
  | None => st
  end.

Definition disconnect (st : Client) : Client :=
  if ConnectionState_eqb (connectionState st) DISCONNECTED then
    log "Already disconnected" st
  else
    let st := log "Disconnecting" st in
    let st := set_connectionState DISCONNECTING st in
    let st := clearHeartbeat st in
    match ws st with
    | Some id =>
        let st := ws_close id st in
        let st := set_ws None st in
        let st := set_connectionState DISCONNECTED st in
        emit "disconnect" UserDisconnect st
    | None => st
    end.

Definition isConnected (st : Client) : bool :=
  ConnectionState_eqb (connectionState st) CONNECTED.

Definition setJwtToken (jwtToken : string) (st : Client) : Client :=
  let st := set_jwtToken jwtToken st in
  if isConnected st then
    connect (disconnect (log "JWT Token updated, reconnecting..." st))
  else st.

Definition onOpen (st : Client) : Client :=
  let st := set_connectionState CONNECTED st in
  let st := log "WebSocket connected" st in
  let st := set_reconnectAttempts 0 st in
  let st := setupHeartbeat st in
  emit "connected" NoPayload st.              (* resolve(true) *)

Definition onError (st : Client) : Client :=
  let st := log "WebSocket error" st in
  let st := set_connectionState ERROR st in
  emit "error" TransportError st.             (* reject(error) *)

Definition onClose (code : Z) (reason : string) (st : Client) : Client :=
  let st := log "WebSocket closed" st in
  let st := clearHeartbeat st in
  let st := set_connectionState DISCONNECTED st in
  let st := emit "disconnect" (CloseInfo code reason) st in
  attemptReconnect st.

Inductive WsData : Type :=
| Text (s : string)
| Binary (data : Buffer.t).

Inductive Input : Type :=
| CallConnect
| CallDisconnect
| CallSetJwtToken (jwtToken : string)
| SocketOpen (id : nat)
| SocketMessage (id : nat) (data : WsData)
| SocketError (id : nat)
| SocketClose (id : nat) (code : Z) (reason : string)
| ReconnectTimer
| PingTimer.

Definition enabled (i : Input) (st : Client) : bool :=
  match i with
  | SocketOpen id =>
      match socketState id st with
      | Some WS_CONNECTING => true
      | _ => false
      end
  | SocketMessage id _ =>
      match socketState id st with
      | Some WS_OPEN => true
      | _ => false
      end
  | SocketError id =>
      match socketState id st with
      | Some WS_CLOSED | None => false
      | Some _ => true
      end
  | SocketClose id _ _ =>
      match socketState id st with
      | Some WS_CLOSED | None => false
      | Some _ => true
      end
  | ReconnectTimer => (0 <? reconnectTimers st)%nat
  | PingTimer => pingInterval st
  | _ => true
  end.

Definition nonEmpty (s : string) : bool := negb (s =? "")%string.

Section EventLoop.
(** [JSON.parse(data) as OrderStatusResponse]. *)
Variable JSON_parse : string -> Completion OrderStatusResponse.

(** The branch of the listener for a frame with a non-200 status. *)
Definition handleErrorResponse (message : OrderStatusResponse)
  (st : Client) : Client :=
  let st := log "Received error" st in
  let st :=
    emit "error"
      (ErrorInfo (status_code message)
         (if nonEmpty (error_message message)
          then error_message message else "Unknown error")) st in
  if (status_code message =? "401")%string then
    disconnect
      (log "Authentication failed: Invalid authorization token" st)
  else if (status_code message =? "403")%string then
    disconnect
      (log "Authentication failed: Authorization token expired" st)
  else if (status_code message =? "429")%string then
    disconnect
      (log "Connection limit breached: Maximum 3 connections per client code"
         st)
  else st.

(** The branch for a frame with status 200. *)
Definition handleOrderUpdate (message : OrderStatusResponse)
  (st : Client) : Client :=
  let st := log "Received order update" st in
  let st := emit "message" (OrderMessage message) st in
  if nonEmpty (order_status message)
     && negb (order_status message =? OrderStatusCode_CONNECTED)%string
  then
    let st := emit "order-update" (OrderMessage message) st in
    let st :=
      emit ("order-" ++ order_status message) (OrderMessage message) st in
    match orderData message with
    | Some d =>
        if nonEmpty (orderid d)
        then emit ("order-" ++ orderid d) (OrderMessage message) st
        else st
    | None => st
    end
  else st.

(** The ['message'] listener. *)
Definition onMessage (data : WsData) (st : Client) : Completion Client :=
  try_catch
    (match data with
     | Text s =>
         if (s =? "pong")%string
         then Normal (log "Received heartbeat response" st)
         else
           try_catch
             (bind (JSON_parse s) (fun message =>
                let st :=
                  if (order_status message =? OrderStatusCode_CONNECTED)%string
                  then
                    log "Connected successfully. Client code:"
                      (set_clientCode (user_id message) st)
                  else st in
                if negb (status_code message =? "200")%string
                then Normal (handleErrorResponse message st)
                else Normal (handleOrderUpdate message st)))
             (fun e => Normal (log "Unknown text message" st))
     | Binary _ => Normal st
     end)
    (fun e => Normal (log "Failed to process WebSocket message" st)).

Definition step (st : Client) (i : Input) : Client :=
  match i with
  | CallConnect => connect st
  | CallDisconnect => disconnect st
  | CallSetJwtToken t => setJwtToken t st
  | SocketOpen id => onOpen (update_socket id (set_readyState WS_OPEN) st)
  | SocketMessage id data =>
      match onMessage data st with
      | Normal st' => st'
      | Throw _ => st
      end
  | SocketError id =>
      onError (update_socket id (set_readyState WS_CLOSING) st)
  | SocketClose id code reason =>
      onClose code reason (update_socket id (set_readyState WS_CLOSED) st)
  | ReconnectTimer => reconnectTimerFired st
  | PingTimer => pingFired st
  end.

Fixpoint run (st : Client) (inputs : list Input) : option Client :=
  match inputs with
  | [] => Some st
  | i :: rest =>
      if enabled i st then run (step st i) rest else None
  end.
End EventLoop.
End OrderStatus.

(** ** Sample frames *)

Module Examples.
Import Buffer.

(** Mode byte, exchange byte and the token 26000 padded to 25 bytes. *)
Definition header (mode exchangeType : Z) : Buffer.t :=
  [byte_of_Z mode; byte_of_Z exchangeType]
    ++ map byte_of_Z [50; 54; 48; 48; 48] ++ zeros 20.

(** One 10-byte level of the DEPTH_20 book. *)
Definition level (quantity price orders : Z) : Buffer.t :=
  le_bytes 4 quantity ++ le_bytes 4 price ++ le_bytes 2 orders.

(** A 443-byte DEPTH_20 frame: level i has quantity 10 + i, raw price
    45000 + i (450.00 + i/100 rupees) and 3 orders. *)
Definition depth20Frame (exchangeType : Z) : Buffer.t :=
  header 4 exchangeType ++ le_bytes 8 1700000000 ++ le_bytes 8 0
    ++ List.concat
         (map (fun i => level (10 + Z.of_nat i) (45000 + Z.of_nat i) 3)
            (seq 0 40)).

(** A 51-byte LTP frame with raw price [raw]. *)
Definition ltpFrame (exchangeType raw : Z) : Buffer.t :=
  header 1 exchangeType ++ le_bytes 8 7 ++ le_bytes 8 1700000000
    ++ le_bytes 8 raw.

Definition rawBidPrices : list Z :=
  map (fun i => 45000 + Z.of_nat i) (seq 0 20).

Definition bidPrices (p : Decoder.Parsed) : option (list Q) :=
  match JsMap.get "bestBids"%string (Decoder.p_tick p) with
  | Some (VEntries bids) => Some (map price bids)
  | _ => None
  end.
End Examples.

(** * Facts *)

(** ** Insertion-ordered maps *)

Section JsMapFacts.
Context {K V : Type} `{KeyEq K}.

Lemma keqb_refl (k : K) : keqb k k = true.
Proof. apply keqb_eq; reflexivity. Qed.

Lemma keqb_neq (a b : K) : keqb a b = false <-> a <> b.
Proof.
  split.
  - intros E Heq. apply keqb_eq in Heq. congruence.
  - intros Hne. destruct (keqb a b) eqn:E; [|reflexivity].
    apply keqb_eq in E. contradiction.
Qed.

Lemma get_set (k k' : K) (v : V) (m : JsMap.t K V) :
  JsMap.get k (JsMap.set k' v m) =
  if keqb k k' then Some v else JsMap.get k m.
Proof.
  induction m as [|[a w] m IH]; simpl.
  - reflexivity.
  - destruct (keqb k' a) eqn:Ea; simpl.
    + apply keqb_eq in Ea; subst a.
      destruct (keqb k k'); reflexivity.
    + rewrite IH. destruct (keqb k a) eqn:Eka; [|reflexivity].
      apply keqb_eq in Eka; subst a.
      destruct (keqb k k') eqn:Ek; [|reflexivity].
      apply keqb_eq in Ek; subst k'. rewrite keqb_refl in Ea. discriminate.
Qed.

Lemma get_set_same (k : K) (v : V) (m : JsMap.t K V) :
  JsMap.get k (JsMap.set k v m) = Some v.
Proof. rewrite get_set, keqb_refl; reflexivity. Qed.

Lemma get_set_other (k k' : K) (v : V) (m : JsMap.t K V) :
  k <> k' -> JsMap.get k (JsMap.set k' v m) = JsMap.get k m.
Proof.
  intros Hne. rewrite get_set.
  apply keqb_neq in Hne. rewrite Hne. reflexivity.
Qed.


Lemma get_None_not_key (k : K) (m : JsMap.t K V) :
  JsMap.get k m = None <-> ~ In k (JsMap.keys m).
Proof.
  unfold JsMap.keys.
  induction m as [|[a w] m IH]; simpl.
  - tauto.
  - destruct (keqb k a) eqn:Ea.
    + apply keqb_eq in Ea; subst a. split; [discriminate | tauto].
    + apply keqb_neq in Ea. rewrite IH. split.
      * intros Hn [Heq | Hin]; [congruence | tauto].
      * tauto.
Qed.

Lemma get_In (k : K) (v : V) (m : JsMap.t K V) :
  JsMap.get k m = Some v -> In (k, v) m.
Proof.
  induction m as [|[a w] m IH]; simpl; [discriminate|].
  destruct (keqb k a) eqn:Ea.
  - apply keqb_eq in Ea; subst a. intros [= ->]. now left.
  - intros Hg. right. now apply IH.
Qed.

Lemma In_get (k : K) (v : V) (m : JsMap.t K V) :
  NoDup (JsMap.keys m) -> In (k, v) m -> JsMap.get k m = Some v.
Proof.
  unfold JsMap.keys.
  induction m as [|[a w] m IH]; simpl; [tauto|].
  intros Hnd [Heq | Hin].
  - injection Heq as -> ->. now rewrite keqb_refl.
  - inversion Hnd as [|? ? Hnotin Hnd']; subst.
    destruct (keqb k a) eqn:Ea.
    + apply keqb_eq in Ea; subst a. exfalso. apply Hnotin.
      apply (in_map fst) in Hin. exact Hin.
    + now apply IH.
Qed.

End JsMapFacts.

(** ** Buffer reads *)

Section BufferFacts.
Import Buffer.

Lemma readUIntLE_in_range (data : Buffer.t) (offset width : nat) :
  (offset + width <= length data)%nat ->
  readUIntLE data offset width =
  Normal (le_value (firstn width (skipn offset data))).
Proof.
  intros Hle. unfold readUIntLE.
  apply Nat.leb_le in Hle. rewrite Hle. reflexivity.
Qed.

Lemma readUIntLE_out_of_range (data : Buffer.t) (offset width : nat) :
  (length data < offset + width)%nat ->
  readUIntLE data offset width = Throw (ERR_OUT_OF_RANGE offset).
Proof.
  intros Hlt. unfold readUIntLE.
  apply Nat.leb_gt in Hlt. rewrite Hlt. reflexivity.
Qed.

Lemma readInt16LE_in_range (data : Buffer.t) (offset : nat) :
  (offset + 2 <= length data)%nat -> exists z, readInt16LE data offset = Normal z.
Proof.
  intros Hle. unfold readInt16LE.
  rewrite readUIntLE_in_range by exact Hle. simpl. eauto.
Qed.

Lemma readInt32LE_in_range (data : Buffer.t) (offset : nat) :
  (offset + 4 <= length data)%nat -> exists z, readInt32LE data offset = Normal z.
Proof.
  intros Hle. unfold readInt32LE.
  rewrite readUIntLE_in_range by exact Hle. simpl. eauto.
Qed.

Lemma readBigInt64LE_in_range (data : Buffer.t) (offset : nat) :
  (offset + 8 <= length data)%nat ->
  exists z, readBigInt64LE data offset = Normal z.
Proof.
  intros Hle. unfold readBigInt64LE.
  rewrite readUIntLE_in_range by exact Hle. simpl. eauto.
Qed.

Lemma readDoubleLE_in_range (data : Buffer.t) (offset : nat) :
  (offset + 8 <= length data)%nat ->
  exists z, readDoubleLE data offset = Normal z.
Proof.
  intros Hle. unfold readDoubleLE.
  rewrite readUIntLE_in_range by exact Hle. eauto.
Qed.
End BufferFacts.

(** ** The binary decoder *)

Section DecoderFacts.
Import Buffer Decoder.
Local Open Scope string_scope.

Lemma bind_Normal {A B : Type} (c : Completion A) (k : A -> Completion B)
  (b : B) :
  bind c k = Normal b -> exists a, c = Normal a /\ k a = Normal b.
Proof. destruct c as [a|e]; simpl; [eauto | discriminate]. Qed.

Lemma field_Normal (data : Buffer.t) (n : nat) (k : string)
  (read : Completion Value) (tick tick' : Tick) :
  field data n k read tick = Normal tick' ->
  ((n <=? length data)%nat = true /\
   exists v, read = Normal v /\ tick' = JsMap.set k v tick) \/
  ((n <=? length data)%nat = false /\ tick' = tick).
Proof.
  unfold field. destruct (n <=? length data)%nat.
  - intros Hb. apply bind_Normal in Hb as [v [Hr Hv]].
    injection Hv as <-. left. eauto.
  - intros [= <-]. right. auto.
Qed.

Lemma field_get_other (data : Buffer.t) (n : nat) (k k' : string)
  (read : Completion Value) (tick tick' : Tick) :
  field data n k read tick = Normal tick' -> k' <> k ->
  JsMap.get k' tick' = JsMap.get k' tick.
Proof.
  intros Hf Hne.
  apply field_Normal in Hf as [[_ [v [_ ->]]] | [_ ->]]; [|reflexivity].
  now apply get_set_other.
Qed.

Lemma field_total (data : Buffer.t) (n : nat) (k : string)
  (read : Completion Value) (tick : Tick) :
  ((n <= length data)%nat -> exists v, read = Normal v) ->
  exists tick', field data n k read tick = Normal tick'.
Proof.
  intros Hr. unfold field.
  destruct (n <=? length data)%nat eqn:E; [|eauto].
  apply Nat.leb_le in E. destruct (Hr E) as [v ->]. simpl. eauto.
Qed.

Lemma int32_in_range (data : Buffer.t) (offset : nat) :
  (offset + 4 <= length data)%nat -> exists v, int32 data offset = Normal v.
Proof.
  intros Hle. unfold int32.
  destruct (readInt32LE_in_range data offset Hle) as [z ->]. simpl. eauto.
Qed.

Lemma int64_in_range (data : Buffer.t) (offset : nat) :
  (offset + 8 <= length data)%nat -> exists v, int64 data offset = Normal v.
Proof.
  intros Hle. unfold int64.
  destruct (readBigInt64LE_in_range data offset Hle) as [z ->]. simpl. eauto.
Qed.

Lemma double_in_range (data : Buffer.t) (offset : nat) :
  (offset + 8 <= length data)%nat -> exists v, double data offset = Normal v.
Proof.
  intros Hle. unfold double.
  destruct (readDoubleLE_in_range data offset Hle) as [z ->]. simpl. eauto.
Qed.

Lemma bigint_in_range (data : Buffer.t) (offset : nat) :
  (offset + 8 <= length data)%nat ->
  exists v, fmap VBigInt (readBigInt64LE data offset) = Normal v.
Proof.
  intros Hle.
  destruct (readBigInt64LE_in_range data offset Hle) as [z ->]. simpl. eauto.
Qed.

(** Discharges one guarded field of a layout whose reads are in range. *)
Ltac field_ok :=
  match goal with
  | |- context [field ?d ?n ?k ?rd ?t] =>
      let t' := fresh "tick" in
      let E := fresh "E" in
      destruct (field_total d n k rd t) as [t' E];
      [ intros ?;
        first [ apply int32_in_range | apply int64_in_range
              | apply double_in_range | apply bigint_in_range ]; lia
      | rewrite E; cbn [bind] ]
  end.

Lemma readToken_total (data : Buffer.t) (n i : nat) (token : string) :
  (2 + i + n <= length data)%nat ->
  exists s, readToken data i n token = Normal s.
Proof.
  revert i token. induction n as [|n IH]; intros i token Hle; simpl.
  - eauto.
  - unfold readUInt8. rewrite readUIntLE_in_range by lia. cbn [bind].
    destruct (_ =? 0)%Z; [eauto|]. apply IH. lia.
Qed.

Lemma quoteFields_total (data : Buffer.t) (tick : Tick) :
  exists tick', quoteFields data tick = Normal tick'.
Proof.
  unfold quoteFields. do 9 field_ok. field_ok. eauto.
Qed.

Lemma bestFive_total (data : Buffer.t) (idx : list nat)
  (bids asks : list DepthEntry) :
  (forall i, In i idx -> (147 + i * 20 + 20 <= length data)%nat) ->
  exists r, bestFive data idx bids asks = Normal r.
Proof.
  revert bids asks. induction idx as [|i idx IH]; intros bids asks Hin.
  - simpl. eauto.
  - assert (Hi : (147 + i * 20 + 20 <= length data)%nat)
      by (apply Hin; now left).
    cbn [bestFive].
    destruct (readInt16LE_in_range data (147 + i * 20)) as [f ->]; [lia|].
    destruct (readBigInt64LE_in_range data (147 + i * 20 + 2)) as [q ->];
      [lia|].
    destruct (readBigInt64LE_in_range data (147 + i * 20 + 10)) as [p ->];
      [lia|].
    destruct (readInt16LE_in_range data (147 + i * 20 + 18)) as [o ->];
      [lia|].
    cbn [bind].
    destruct (f =? 1)%Z; apply IH; intros j Hj; apply Hin; now right.
Qed.

(** What it means for a depth entry to be the 10-byte packet at [offset]. *)
Definition levelAt (data : Buffer.t) (offset : nat) (e : DepthEntry) : Prop :=
  readInt32LE data offset = Normal (quantity e) /\
  (exists raw, readInt32LE data (offset + 4) = Normal raw
               /\ price e = inject_Z raw) /\
  readInt16LE data (offset + 8) = Normal (numOrders e).

Lemma depthSide_total (data : Buffer.t) (base : nat) (idx : list nat)
  (side : list DepthEntry) :
  (forall i, In i idx -> (base + i * 10 + 10 <= length data)%nat) ->
  exists r, depthSide data base idx side = Normal r.
Proof.
  revert side. induction idx as [|i idx IH]; intros side Hin.
  - simpl. eauto.
  - assert (Hi : (base + i * 10 + 10 <= length data)%nat)
      by (apply Hin; now left).
    cbn [depthSide].
    destruct (readInt32LE_in_range data (base + i * 10)) as [q ->]; [lia|].
    destruct (readInt32LE_in_range data (base + i * 10 + 4)) as [p ->]; [lia|].
    destruct (readInt16LE_in_range data (base + i * 10 + 8)) as [o ->]; [lia|].
    cbn [bind]. apply IH. intros j Hj. apply Hin. now right.
Qed.

Lemma depthSide_spec (data : Buffer.t) (base : nat) (idx : list nat)
  (side result : list DepthEntry) :
  depthSide data base idx side = Normal result ->
  exists levels,
    result = (side ++ levels)%list /\
    Forall2 (fun i e => levelAt data (base + i * 10) e) idx levels.
Proof.
  revert side. induction idx as [|i idx IH]; intros side; cbn [depthSide].
  - intros [= <-]. exists []. rewrite app_nil_r. split; constructor.
  - intros Hb.
    apply bind_Normal in Hb as [q [Hq Hb]].
    apply bind_Normal in Hb as [p [Hp Hb]].
    apply bind_Normal in Hb as [o [Ho Hb]].
    apply IH in Hb as [levels [-> HF]].
    eexists (_ :: levels). rewrite <- app_assoc. split; [reflexivity|].
    constructor; [|exact HF].
    unfold levelAt; simpl. repeat split; eauto.
Qed.

Lemma Forall2_seq_nth {A : Type} (R : nat -> A -> Prop) (n s : nat)
  (l : list A) :
  Forall2 R (seq s n) l ->
  List.length l = n /\
  forall i, (i < n)%nat -> exists e, nth_error l i = Some e /\ R (s + i)%nat e.
Proof.
  revert s l. induction n as [|n IH]; intros s l HF; simpl in HF.
  - inversion HF; subst. split; [reflexivity | intros i Hi; lia].
  - inversion HF as [|? e ? l' HR HF']; subst.
    apply IH in HF' as [Hlen Hnth]. split; [simpl; lia|].
    intros [|i] Hi.
    + exists e. rewrite Nat.add_0_r. auto.
    + destruct (Hnth i) as [e' [He' HR']]; [lia|].
      exists e'. simpl. split; [exact He'|].
      replace (s + S i)%nat with (S s + i)%nat by lia. exact HR'.
Qed.

Lemma snapQuoteFields_total (data : Buffer.t) (tick : Tick) :
  exists tick', snapQuoteFields data tick = Normal tick'.
Proof.
  unfold snapQuoteFields.
  destruct (quoteFields_total data tick) as [t0 ->]. cbn [bind].
  do 3 field_ok.
  match goal with
  | |- context [bind (if ?c then ?a else ?b) _] =>
      assert (Hfive : exists t, (if c then a else b) = Normal t)
  end.
  { destruct (347 <=? length data)%nat eqn:E347; [|eauto].
    apply Nat.leb_le in E347.
    destruct (bestFive_total data (seq 0 10) [] []) as [[bids asks] ->].
    - intros i Hi. apply in_seq in Hi. lia.
    - simpl. eauto. }
  destruct Hfive as [t ->]. cbn [bind].
  do 3 field_ok. field_ok. eauto.
Qed.

Lemma depth20Fields_total (data : Buffer.t) (exchangeType : Z) (tick : Tick) :
  exists tick', depth20Fields data exchangeType tick = Normal tick'.
Proof.
  unfold depth20Fields.
  destruct ((exchangeType =? ExchangeType_code NSE_CM)%Z
            && (443 <=? length data)%nat) eqn:E443; [|eauto].
  apply andb_true_iff in E443 as [_ Hlen]. apply Nat.leb_le in Hlen.
  do 2 field_ok.
  destruct (depthSide_total data 43 (seq 0 20) []) as [bids ->].
  { intros i Hi. apply in_seq in Hi. lia. }
  destruct (depthSide_total data 243 (seq 0 20) []) as [asks ->].
  { intros i Hi. apply in_seq in Hi. lia. }
  simpl. eauto.
Qed.

(** A frame that holds the 27 header bytes is decoded, whatever its mode
    byte and however short the rest. *)
Lemma decode_total (data : Buffer.t) :
  (27 <= length data)%nat -> exists p, decode data = Normal p.
Proof.
  intros Hlen. unfold decode, extract, readInt8.
  rewrite !readUIntLE_in_range by lia. cbn [fmap bind].
  destruct (readToken_total data 25 0 "") as [token ->]; [lia|].
  cbn [bind]. do 2 field_ok.
  match goal with
  | |- context [if ?c then ?a else ?b] =>
      assert (Hmode : exists t, (if c then a else b) = Normal t)
  end.
  { destruct (_ =? FeedMode_code LTP)%Z.
    { field_ok. eauto. }
    destruct (_ =? FeedMode_code QUOTE)%Z; [apply quoteFields_total|].
    destruct (_ =? FeedMode_code SNAP_QUOTE)%Z; [apply snapQuoteFields_total|].
    destruct (_ =? FeedMode_code DEPTH_20)%Z; [apply depth20Fields_total|].
    eauto. }
  destruct Hmode as [t ->]. simpl. eauto.
Qed.

(** A frame without its two leading bytes makes the decoder throw. *)
Lemma decode_short_throws (data : Buffer.t) :
  (length data < 2)%nat -> exists e, decode data = Throw e.
Proof.
  intros Hlen. unfold decode, extract, readInt8.
  destruct (Nat.eq_dec (length data) 0) as [E0 | E0].
  - rewrite (readUIntLE_out_of_range data 0 1) by lia. simpl. eauto.
  - rewrite (readUIntLE_in_range data 0 1) by lia.
    rewrite (readUIntLE_out_of_range data 1 1) by lia. simpl. eauto.
Qed.
End DecoderFacts.

Section DecoderClaims.
Import Buffer Decoder.
Local Open Scope string_scope.

Lemma normalize_without_price (exchangeType : Z) (tick : Tick) :
  JsMap.get "lastTradedPrice" tick = None ->
  normalize exchangeType tick = tick.
Proof. intros Hg. unfold normalize. rewrite Hg. reflexivity. Qed.

(** The header part of a decoded frame, and what the mode-specific part
    was applied to. *)
Lemma extract_Normal (data : Buffer.t) (p : Parsed) :
  extract data = Normal p ->
  exists mode tick2,
    readInt8 data 0 = Normal mode /\
    readInt8 data 1 = Normal (p_exchangeType p) /\
    JsMap.get "lastTradedPrice" tick2 = None /\
    JsMap.get "bestBids" tick2 = None /\
    JsMap.get "bestAsks" tick2 = None /\
    (if (mode =? FeedMode_code LTP)%Z then
       field data 51 "lastTradedPrice" (int32 data 43) tick2
     else if (mode =? FeedMode_code QUOTE)%Z then quoteFields data tick2
     else if (mode =? FeedMode_code SNAP_QUOTE)%Z then
       snapQuoteFields data tick2
     else if (mode =? FeedMode_code DEPTH_20)%Z then
       depth20Fields data (p_exchangeType p) tick2
     else Normal tick2) = Normal (p_tick p).
Proof.
  unfold extract. intros Hx.
  apply bind_Normal in Hx as [mode [Hmode Hx]].
  apply bind_Normal in Hx as [ex [Hex Hx]].
  apply bind_Normal in Hx as [token [Htoken Hx]].
  apply bind_Normal in Hx as [tick1 [H1 Hx]].
  apply bind_Normal in Hx as [tick2 [H2 Hx]].
  apply bind_Normal in Hx as [tick3 [H3 Hx]].
  injection Hx as <-. simpl.
  exists mode, tick2. repeat split; try assumption.
  - rewrite (field_get_other _ _ _ "lastTradedPrice" _ _ _ H2) by discriminate.
    rewrite (field_get_other _ _ _ "lastTradedPrice" _ _ _ H1) by discriminate.
    reflexivity.
  - rewrite (field_get_other _ _ _ "bestBids" _ _ _ H2) by discriminate.
    rewrite (field_get_other _ _ _ "bestBids" _ _ _ H1) by discriminate.
    reflexivity.
  - rewrite (field_get_other _ _ _ "bestAsks" _ _ _ H2) by discriminate.
    rewrite (field_get_other _ _ _ "bestAsks" _ _ _ H1) by discriminate.
    reflexivity.
Qed.

(** The DEPTH_20 branch: either the guard fails and the tick is left as
    it was, or both sides are read from the fixed layout. *)
Lemma depth20Fields_Normal (data : Buffer.t) (exchangeType : Z)
  (tick tick' : Tick) :
  depth20Fields data exchangeType tick = Normal tick' ->
  (((exchangeType =? ExchangeType_code NSE_CM)%Z
    && (443 <=? length data)%nat = false) /\ tick' = tick) \/
  (((exchangeType =? ExchangeType_code NSE_CM)%Z
    && (443 <=? length data)%nat = true) /\
   exists tick4 bids asks,
     JsMap.get "lastTradedPrice" tick4 = JsMap.get "lastTradedPrice" tick /\
     depthSide data 43 (seq 0 20) [] = Normal bids /\
     depthSide data 243 (seq 0 20) [] = Normal asks /\
     tick' = JsMap.set "bestAsks" (VEntries asks)
               (JsMap.set "bestBids" (VEntries bids) tick4)).
Proof.
  unfold depth20Fields.
  destruct ((exchangeType =? ExchangeType_code NSE_CM)%Z
            && (443 <=? length data)%nat).
  - intros Hb. right. split; [reflexivity|].
    apply bind_Normal in Hb as [tick3 [H3 Hb]].
    apply bind_Normal in Hb as [tick4 [H4 Hb]].
    apply bind_Normal in Hb as [bids [Hbids Hb]].
    apply bind_Normal in Hb as [asks [Hasks Hb]].
    injection Hb as <-.
    exists tick4, bids, asks. repeat split; try assumption.
    rewrite (field_get_other _ _ _ "lastTradedPrice" _ _ _ H4) by discriminate.
    rewrite (field_get_other _ _ _ "lastTradedPrice" _ _ _ H3) by discriminate.
    reflexivity.
  - intros [= <-]. left. auto.
Qed.

(** Whatever the frame, a DEPTH_20 tick goes through the emission step
    exactly as raw extraction left it: the normalisation block is not
    entered, because that layout never sets [lastTradedPrice]. *)
Lemma depth20_decode_is_extract (data : Buffer.t) :
  readInt8 data 0 = Normal (FeedMode_code DEPTH_20) ->
  decode data = extract data.
Proof.
  intros Hmode. unfold decode.
  destruct (extract data) as [p|e] eqn:Hx; [|reflexivity].
  cbn [bind].
  destruct (extract_Normal _ _ Hx)
    as [mode [tick2 [Hm [_ [Hltp [_ [_ Hbranch]]]]]]].
  rewrite Hmode in Hm. injection Hm as <-. simpl in Hbranch.
  apply depth20Fields_Normal in Hbranch
    as [[_ Heq] | [_ [tick4 [bids [asks [H4 [_ [_ Heq]]]]]]]].
  - rewrite normalize_without_price by (rewrite Heq; exact Hltp).
    destruct p; reflexivity.
  - rewrite normalize_without_price.
    + destruct p; reflexivity.
    + rewrite Heq. rewrite !get_set_other by discriminate.
      rewrite H4. exact Hltp.
Qed.

(** C3 (as amended). For a frame whose mode byte is DEPTH_20 the decoder
    reads the two 20-level sides from the fixed layout (bids from offset
    43, asks from offset 243, 10 bytes per level) exactly when the
    exchange byte is the NSE cash-market code and the frame holds at least
    443 bytes; in every other case the tick has neither [bestBids] nor
    [bestAsks]. Such a frame is decoded whenever it holds its 27 header
    bytes. *)
Theorem depth20_levels_guarded_by_exchange (data : Buffer.t) :
  readInt8 data 0 = Normal (FeedMode_code DEPTH_20) ->
  ((27 <= length data)%nat -> exists p, decode data = Normal p) /\
  forall p, decode data = Normal p ->
    readInt8 data 1 = Normal (p_exchangeType p) /\
    if (p_exchangeType p =? ExchangeType_code NSE_CM)%Z
       && (443 <=? length data)%nat
    then
      exists bids asks,
        JsMap.get "bestBids" (p_tick p) = Some (VEntries bids) /\
        JsMap.get "bestAsks" (p_tick p) = Some (VEntries asks) /\
        List.length bids = 20%nat /\ List.length asks = 20%nat /\
        forall i, (i < 20)%nat ->
          (exists e, nth_error bids i = Some e
                     /\ levelAt data (43 + i * 10) e) /\
          (exists e, nth_error asks i = Some e
                     /\ levelAt data (243 + i * 10) e)
    else
      JsMap.get "bestBids" (p_tick p) = None /\
      JsMap.get "bestAsks" (p_tick p) = None.
Proof.
  intros Hmode. split; [apply decode_total|].
  intros p Hd. rewrite depth20_decode_is_extract in Hd by exact Hmode.
  destruct (extract_Normal _ _ Hd)
    as [mode [tick2 [Hm [Hex [_ [Hb [Ha Hbranch]]]]]]].
  rewrite Hmode in Hm. injection Hm as <-. simpl in Hbranch.
  split; [exact Hex|].
  apply depth20Fields_Normal in Hbranch
    as [[-> Heq] | [-> [tick4 [bids [asks [_ [Hbids [Hasks Heq]]]]]]]].
  - rewrite Heq. auto.
  - exists bids, asks. rewrite Heq.
    apply depthSide_spec in Hbids as [lb [-> HFb]].
    apply depthSide_spec in Hasks as [la [-> HFa]].
    apply Forall2_seq_nth in HFb as [Hlb Hnb].
    apply Forall2_seq_nth in HFa as [Hla Hna].
    simpl. repeat split.
    + rewrite get_set_other by discriminate. apply get_set_same.
    + apply get_set_same.
    + exact Hlb.
    + exact Hla.
    + destruct (Hnb i H) as [e [He Hl]]. eauto.
    + destruct (Hna i H) as [e [He Hl]]. eauto.
Qed.

(** The amended C3 at the NSE cash-market sample frame. *)
Lemma depth20_levels_guarded_by_exchange_witness :
  readInt8 (Examples.depth20Frame 1) 0 = Normal (FeedMode_code DEPTH_20) /\
  exists p, decode (Examples.depth20Frame 1) = Normal p /\
            Examples.bidPrices p = Some (map inject_Z Examples.rawBidPrices).
Proof.
  assert (Hmode : readInt8 (Examples.depth20Frame 1) 0
                  = Normal (FeedMode_code DEPTH_20)) by reflexivity.
  split; [exact Hmode|].
  destruct (depth20_levels_guarded_by_exchange (Examples.depth20Frame 1) Hmode)
    as [Htotal _].
  destruct Htotal as [p Hp]; [vm_compute; lia|].
  exists p. split; [exact Hp|].
  vm_compute in Hp. injection Hp as <-. reflexivity.
Defined.

(** C3, counterexample. The very bytes that yield twenty levels per side
    under the NSE cash-market code yield none under the BSE cash-market
    code: the 20-level arrays are not extracted regardless of the exchange
    byte. *)
Lemma depth20_not_extracted_for_bse_cm :
  readInt8 (Examples.depth20Frame 3) 0 = Normal (FeedMode_code DEPTH_20) /\
  skipn 2 (Examples.depth20Frame 3) = skipn 2 (Examples.depth20Frame 1) /\
  (exists p, decode (Examples.depth20Frame 1) = Normal p /\
             Examples.bidPrices p <> None) /\
  (exists p, decode (Examples.depth20Frame 3) = Normal p /\
             JsMap.get "bestBids" (p_tick p) = None /\
             JsMap.get "bestAsks" (p_tick p) = None).
Proof.
  split; [reflexivity|]. split; [reflexivity|]. split.
  - eexists. split; [vm_compute; reflexivity|]. vm_compute. discriminate.
  - eexists. split; [vm_compute; reflexivity|]. split; reflexivity.
Qed.
End DecoderClaims.

Section NormalisationFacts.
Import Buffer Decoder.
Local Open Scope string_scope.

(** What the normalisation does to the value of a book side. *)
Definition divideSide (divisor : Z) (v : Value) : Value :=
  match v with
  | VEntries l => VEntries (map (normalizeEntry divisor) l)
  | _ => v
  end.

Lemma get_normalizeField (divisor : Z) (k k' : string) (tick : Tick) :
  JsMap.get k' (normalizeField divisor k tick) =
  if keqb k' k then option_map (divide divisor) (JsMap.get k' tick)
  else JsMap.get k' tick.
Proof.
  unfold normalizeField.
  destruct (JsMap.get k tick) as [v|] eqn:Ek.
  - rewrite get_set. destruct (keqb k' k) eqn:E; [|reflexivity].
    apply keqb_eq in E; subst k'. rewrite Ek. reflexivity.
  - destruct (keqb k' k) eqn:E; [|reflexivity].
    apply keqb_eq in E; subst k'. rewrite Ek. reflexivity.
Qed.

Lemma get_normalizeSide (divisor : Z) (k k' : string) (tick : Tick) :
  JsMap.get k' (normalizeSide divisor k tick) =
  if keqb k' k then option_map (divideSide divisor) (JsMap.get k' tick)
  else JsMap.get k' tick.
Proof.
  unfold normalizeSide.
  destruct (JsMap.get k tick) as [v|] eqn:Ek.
  - destruct (keqb k' k) eqn:E.
    + apply keqb_eq in E; subst k'.
      destruct v; rewrite ?get_set_same, ?Ek; reflexivity.
    + apply keqb_neq in E.
      destruct v; rewrite ?get_set_other by exact E; reflexivity.
  - destruct (keqb k' k) eqn:E; [|reflexivity].
    apply keqb_eq in E; subst k'. rewrite Ek. reflexivity.
Qed.

Lemma get_fold_normalize (step : string -> Tick -> Tick)
  (change : Value -> Value) (ks : list string) :
  (forall k k' tick,
     JsMap.get k' (step k tick) =
     if keqb k' k then option_map change (JsMap.get k' tick)
     else JsMap.get k' tick) ->
  NoDup ks ->
  forall tick k',
    JsMap.get k' (fold_left (fun t k => step k t) ks tick) =
    if existsb (keqb k') ks then option_map change (JsMap.get k' tick)
    else JsMap.get k' tick.
Proof.
  intros Hstep. induction ks as [|k ks IH]; intros Hnd tick k'.
  - reflexivity.
  - inversion Hnd as [|? ? Hnotin Hnd']; subst.
    cbn [fold_left existsb]. rewrite IH by exact Hnd'. rewrite Hstep.
    destruct (keqb k' k) eqn:E; cbn [orb]; [|reflexivity].
    apply keqb_eq in E; subst k'.
    destruct (existsb (keqb k) ks) eqn:Ex; [|reflexivity].
    apply existsb_exists in Ex as [x [Hx Hkx]].
    apply keqb_eq in Hkx; subst x. contradiction.
Qed.

(** The normalisation block, field by field: once it is entered, every
    field of [priceFields] that the tick has is divided by the divisor of
    the exchange, the price of every entry of [bestBids] and [bestAsks]
    is divided, and nothing else changes. *)
Lemma normalize_spec (exchangeType : Z) (tick : Tick) (k : string) :
  JsMap.get "lastTradedPrice" tick <> None ->
  JsMap.get k (normalize exchangeType tick) =
  if existsb (keqb k) priceFields then
    option_map (divide (divisorFor exchangeType)) (JsMap.get k tick)
  else if existsb (keqb k) sideFields then
    option_map (divideSide (divisorFor exchangeType)) (JsMap.get k tick)
  else JsMap.get k tick.
Proof.
  intros Hltp. unfold normalize.
  destruct (JsMap.get "lastTradedPrice" tick) as [v|]; [|congruence].
  rewrite (get_fold_normalize
             (normalizeSide (divisorFor exchangeType))
             (divideSide (divisorFor exchangeType)))
    by (try apply get_normalizeSide;
        repeat constructor; simpl; intuition discriminate).
  rewrite (get_fold_normalize
             (normalizeField (divisorFor exchangeType))
             (divide (divisorFor exchangeType)))
    by (try apply get_normalizeField;
        repeat constructor; simpl; intuition discriminate).
  destruct (existsb (keqb k) sideFields) eqn:Es; [|reflexivity].
  destruct (existsb (keqb k) priceFields) eqn:Ep; [|reflexivity].
  exfalso.
  apply existsb_exists in Es as [x [Hx Hkx]]. apply keqb_eq in Hkx; subst x.
  apply existsb_exists in Ep as [y [Hy Hky]]. apply keqb_eq in Hky; subst y.
  simpl in Hx, Hy. intuition (subst; discriminate).
Qed.

(** Quantities and order counts of a level are left alone. *)
Lemma normalizeEntry_keeps (divisor : Z) (e : DepthEntry) :
  quantity (normalizeEntry divisor e) = quantity e /\
  numOrders (normalizeEntry divisor e) = numOrders e /\
  price (normalizeEntry divisor e) = scale divisor (price e).
Proof. repeat split. Qed.

Lemma divisorFor_spec (exchangeType : Z) :
  divisorFor exchangeType =
  if (exchangeType =? 13)%Z then 10000000%Z else 100%Z.
Proof. reflexivity. Qed.

(** The spec's two sample prices: 10,000,000 on the currency segment and
    100 on any other segment both decode to 1. *)
Lemma ltp_scaled_examples :
  (exists p, decode (Examples.ltpFrame 13 10000000) = Normal p /\
             JsMap.get "lastTradedPrice" (p_tick p) = Some (VNum 1)) /\
  (exists p, decode (Examples.ltpFrame 1 100) = Normal p /\
             JsMap.get "lastTradedPrice" (p_tick p) = Some (VNum 1)) /\
  (exists p, decode (Examples.ltpFrame 1 45000) = Normal p /\
             JsMap.get "lastTradedPrice" (p_tick p) = Some (VNum 450)).
Proof.
  repeat split; eexists; (split; [vm_compute; reflexivity | reflexivity]).
Qed.

(** C1, at the failing input. The sample DEPTH_20 frame carries the raw
    bid prices 45000, 45001, ... on the NSE cash-market segment, whose
    divisor is 100. The tick that is emitted still holds the raw integers:
    no price of the 20-level arrays has been divided. *)
Theorem depth20_prices_left_unscaled :
  exists p,
    decode (Examples.depth20Frame 1) = Normal p /\
    divisorFor (p_exchangeType p) = 100%Z /\
    Examples.bidPrices p = Some (map inject_Z Examples.rawBidPrices) /\
    Examples.bidPrices p <>
      Some (map (fun raw => scale 100 (inject_Z raw)) Examples.rawBidPrices).
Proof.
  eexists. split; [vm_compute; reflexivity|].
  split; [reflexivity|]. split; [reflexivity|].
  vm_compute. discriminate.
Qed.
End NormalisationFacts.

(** ** The market-data client: what each helper leaves alone *)

Section MarketDataFrames.
Import MarketData.

Ltac frame_auto :=
  intros;
  repeat match goal with
         | st : Client |- _ => destruct st
         end;
  unfold setupHeartbeat, log, emit, update_socket, clearHeartbeat; simpl;
  repeat match goal with
         | |- context [if ?c then _ else _] => destruct c; simpl
         end;
  reflexivity.

Lemma md_log_ws (message : string) (st : Client) :
  ws (log message st) = ws st.
Proof. frame_auto. Qed.

Lemma md_log_connectionState (message : string) (st : Client) :
  connectionState (log message st) = connectionState st.
Proof. frame_auto. Qed.

Lemma md_log_subscriptions (message : string) (st : Client) :
  subscriptions (log message st) = subscriptions st.
Proof. frame_auto. Qed.

Lemma md_log_reconnectAttempts (message : string) (st : Client) :
  reconnectAttempts (log message st) = reconnectAttempts st.
Proof. frame_auto. Qed.

Lemma md_log_heartbeatInterval (message : string) (st : Client) :
  heartbeatInterval (log message st) = heartbeatInterval st.
Proof. frame_auto. Qed.

Lemma md_log_debug (message : string) (st : Client) :
  debug (log message st) = debug st.
Proof. frame_auto. Qed.

Lemma md_log_pendingSubscriptions (message : string) (st : Client) :
  pendingSubscriptions (log message st) = pendingSubscriptions st.
Proof. frame_auto. Qed.

Lemma md_log_sockets (message : string) (st : Client) :
  sockets (log message st) = sockets st.
Proof. frame_auto. Qed.

Lemma md_log_emitted (message : string) (st : Client) :
  emitted (log message st) = emitted st.
Proof. frame_auto. Qed.

Lemma md_log_reconnectTimers (message : string) (st : Client) :
  reconnectTimers (log message st) = reconnectTimers st.
Proof. frame_auto. Qed.

Lemma md_log_constructorThrows (message : string) (st : Client) :
  constructorThrows (log message st) = constructorThrows st.
Proof. frame_auto. Qed.

Lemma md_emit_ws (name : string) (p : Payload) (st : Client) :
  ws (emit name p st) = ws st.
Proof. frame_auto. Qed.

Lemma md_emit_connectionState (name : string) (p : Payload) (st : Client) :
  connectionState (emit name p st) = connectionState st.
Proof. frame_auto. Qed.

Lemma md_emit_subscriptions (name : string) (p : Payload) (st : Client) :
  subscriptions (emit name p st) = subscriptions st.
Proof. frame_auto. Qed.

Lemma md_emit_reconnectAttempts (name : string) (p : Payload) (st : Client) :
  reconnectAttempts (emit name p st) = reconnectAttempts st.
Proof. frame_auto. Qed.

Lemma md_emit_heartbeatInterval (name : string) (p : Payload) (st : Client) :
  heartbeatInterval (emit name p st) = heartbeatInterval st.
Proof. frame_auto. Qed.

Lemma md_emit_debug (name : string) (p : Payload) (st : Client) :
  debug (emit name p st) = debug st.
Proof. frame_auto. Qed.

Lemma md_emit_pendingSubscriptions (name : string) (p : Payload) (st : Client) :
  pendingSubscriptions (emit name p st) = pendingSubscriptions st.
Proof. frame_auto. Qed.

Lemma md_emit_sockets (name : string) (p : Payload) (st : Client) :
  sockets (emit name p st) = sockets st.
Proof. frame_auto. Qed.

Lemma md_emit_console (name : string) (p : Payload) (st : Client) :
  console (emit name p st) = console st.
Proof. frame_auto. Qed.

Lemma md_emit_reconnectTimers (name : string) (p : Payload) (st : Client) :
  reconnectTimers (emit name p st) = reconnectTimers st.
Proof. frame_auto. Qed.

Lemma md_emit_constructorThrows (name : string) (p : Payload) (st : Client) :
  constructorThrows (emit name p st) = constructorThrows st.
Proof. frame_auto. Qed.

Lemma md_update_socket_ws (id : nat) (f : Socket -> Socket) (st : Client) :
  ws (update_socket id f st) = ws st.
Proof. frame_auto. Qed.

Lemma md_update_socket_connectionState (id : nat) (f : Socket -> Socket) (st : Client) :
  connectionState (update_socket id f st) = connectionState st.
Proof. frame_auto. Qed.

Lemma md_update_socket_subscriptions (id : nat) (f : Socket -> Socket) (st : Client) :
  subscriptions (update_socket id f st) = subscriptions st.
Proof. frame_auto. Qed.

Lemma md_update_socket_reconnectAttempts (id : nat) (f : Socket -> Socket) (st : Client) :
  reconnectAttempts (update_socket id f st) = reconnectAttempts st.
Proof. frame_auto. Qed.

Lemma md_update_socket_heartbeatInterval (id : nat) (f : Socket -> Socket) (st : Client) :
  heartbeatInterval (update_socket id f st) = heartbeatInterval st.
Proof. frame_auto. Qed.

Lemma md_update_socket_debug (id : nat) (f : Socket -> Socket) (st : Client) :
  debug (update_socket id f st) = debug st.
Proof. frame_auto. Qed.

Lemma md_update_socket_pendingSubscriptions (id : nat) (f : Socket -> Socket) (st : Client) :
  pendingSubscriptions (update_socket id f st) = pendingSubscriptions st.
Proof. frame_auto. Qed.

Lemma md_update_socket_emitted (id : nat) (f : Socket -> Socket) (st : Client) :
  emitted (update_socket id f st) = emitted st.
Proof. frame_auto. Qed.

Lemma md_update_socket_console (id : nat) (f : Socket -> Socket) (st : Client) :
  console (update_socket id f st) = console st.
Proof. frame_auto. Qed.

Lemma md_update_socket_reconnectTimers (id : nat) (f : Socket -> Socket) (st : Client) :
  reconnectTimers (update_socket id f st) = reconnectTimers st.
Proof. frame_auto. Qed.

Lemma md_update_socket_constructorThrows (id : nat) (f : Socket -> Socket) (st : Client) :
  constructorThrows (update_socket id f st) = constructorThrows st.
Proof. frame_auto. Qed.

Lemma md_clearHeartbeat_ws  (st : Client) :
  ws (clearHeartbeat st) = ws st.
Proof. frame_auto. Qed.

Lemma md_clearHeartbeat_connectionState  (st : Client) :
  connectionState (clearHeartbeat st) = connectionState st.
Proof. frame_auto. Qed.

Lemma md_clearHeartbeat_subscriptions  (st : Client) :
  subscriptions (clearHeartbeat st) = subscriptions st.
Proof. frame_auto. Qed.

Lemma md_clearHeartbeat_reconnectAttempts  (st : Client) :
  reconnectAttempts (clearHeartbeat st) = reconnectAttempts st.
Proof. frame_auto. Qed.

Lemma md_clearHeartbeat_debug  (st : Client) :
  debug (clearHeartbeat st) = debug st.
Proof. frame_auto. Qed.

Lemma md_clearHeartbeat_pendingSubscriptions  (st : Client) :
  pendingSubscriptions (clearHeartbeat st) = pendingSubscriptions st.
Proof. frame_auto. Qed.

Lemma md_clearHeartbeat_sockets  (st : Client) :
  sockets (clearHeartbeat st) = sockets st.
Proof. frame_auto. Qed.

Lemma md_clearHeartbeat_emitted  (st : Client) :
  emitted (clearHeartbeat st) = emitted st.
Proof. frame_auto. Qed.

Lemma md_clearHeartbeat_console  (st : Client) :
  console (clearHeartbeat st) = console st.
Proof. frame_auto. Qed.

Lemma md_clearHeartbeat_reconnectTimers  (st : Client) :
  reconnectTimers (clearHeartbeat st) = reconnectTimers st.
Proof. frame_auto. Qed.

Lemma md_clearHeartbeat_constructorThrows  (st : Client) :
  constructorThrows (clearHeartbeat st) = constructorThrows st.
Proof. frame_auto. Qed.

Lemma md_setupHeartbeat_ws  (st : Client) :
  ws (setupHeartbeat st) = ws st.
Proof. frame_auto. Qed.

Lemma md_setupHeartbeat_connectionState  (st : Client) :
  connectionState (setupHeartbeat st) = connectionState st.
Proof. frame_auto. Qed.

Lemma md_setupHeartbeat_subscriptions  (st : Client) :
  subscriptions (setupHeartbeat st) = subscriptions st.
Proof. frame_auto. Qed.

Lemma md_setupHeartbeat_reconnectAttempts  (st : Client) :
  reconnectAttempts (setupHeartbeat st) = reconnectAttempts st.
Proof. frame_auto. Qed.

Lemma md_setupHeartbeat_debug  (st : Client) :
  debug (setupHeartbeat st) = debug st.
Proof. frame_auto. Qed.

Lemma md_setupHeartbeat_pendingSubscriptions  (st : Client) :
  pendingSubscriptions (setupHeartbeat st) = pendingSubscriptions st.
Proof. frame_auto. Qed.

Lemma md_setupHeartbeat_sockets  (st : Client) :
  sockets (setupHeartbeat st) = sockets st.
Proof. frame_auto. Qed.

Lemma md_setupHeartbeat_emitted  (st : Client) :
  emitted (setupHeartbeat st) = emitted st.
Proof. frame_auto. Qed.

Lemma md_setupHeartbeat_console  (st : Client) :
  console (setupHeartbeat st) = console st.
Proof. frame_auto. Qed.

Lemma md_setupHeartbeat_reconnectTimers  (st : Client) :
  reconnectTimers (setupHeartbeat st) = reconnectTimers st.
Proof. frame_auto. Qed.

Lemma md_setupHeartbeat_constructorThrows  (st : Client) :
  constructorThrows (setupHeartbeat st) = constructorThrows st.
Proof. frame_auto. Qed.

End MarketDataFrames.

Create Rewrite HintDb md_frame.

#[export] Hint Rewrite
  @md_log_ws
  @md_log_connectionState
  @md_log_subscriptions
  @md_log_reconnectAttempts
  @md_log_heartbeatInterval
  @md_log_debug
  @md_log_pendingSubscriptions
  @md_log_sockets
  @md_log_emitted
  @md_log_reconnectTimers
  @md_log_constructorThrows
  @md_emit_ws
  @md_emit_connectionState
  @md_emit_subscriptions
  @md_emit_reconnectAttempts
  @md_emit_heartbeatInterval
  @md_emit_debug
  @md_emit_pendingSubscriptions
  @md_emit_sockets
  @md_emit_console
  @md_emit_reconnectTimers
  @md_emit_constructorThrows
  @md_update_socket_ws
  @md_update_socket_connectionState
  @md_update_socket_subscriptions
  @md_update_socket_reconnectAttempts
  @md_update_socket_heartbeatInterval
  @md_update_socket_debug
  @md_update_socket_pendingSubscriptions
  @md_update_socket_emitted
  @md_update_socket_console
  @md_update_socket_reconnectTimers
  @md_update_socket_constructorThrows
  @md_clearHeartbeat_ws
  @md_clearHeartbeat_connectionState
  @md_clearHeartbeat_subscriptions
  @md_clearHeartbeat_reconnectAttempts
  @md_clearHeartbeat_debug
  @md_clearHeartbeat_pendingSubscriptions
  @md_clearHeartbeat_sockets
  @md_clearHeartbeat_emitted
  @md_clearHeartbeat_console
  @md_clearHeartbeat_reconnectTimers
  @md_clearHeartbeat_constructorThrows
  @md_setupHeartbeat_ws
  @md_setupHeartbeat_connectionState
  @md_setupHeartbeat_subscriptions
  @md_setupHeartbeat_reconnectAttempts
  @md_setupHeartbeat_debug
  @md_setupHeartbeat_pendingSubscriptions
  @md_setupHeartbeat_sockets
  @md_setupHeartbeat_emitted
  @md_setupHeartbeat_console
  @md_setupHeartbeat_reconnectTimers
  @md_setupHeartbeat_constructorThrows
  : md_frame.

(** Projections of the record updates. *)

Section MarketDataSetters.
Import MarketData.

Lemma md_set_ws_ws (v : option nat) (st : Client) :
  ws (set_ws v st) = v.
Proof. reflexivity. Qed.

Lemma md_set_ws_connectionState (v : option nat) (st : Client) :
  connectionState (set_ws v st) = connectionState st.
Proof. reflexivity. Qed.

Lemma md_set_ws_subscriptions (v : option nat) (st : Client) :
  subscriptions (set_ws v st) = subscriptions st.
Proof. reflexivity. Qed.

Lemma md_set_ws_reconnectAttempts (v : option nat) (st : Client) :
  reconnectAttempts (set_ws v st) = reconnectAttempts st.
Proof. reflexivity. Qed.

Lemma md_set_ws_heartbeatInterval (v : option nat) (st : Client) :
  heartbeatInterval (set_ws v st) = heartbeatInterval st.
Proof. reflexivity. Qed.

Lemma md_set_ws_debug (v : option nat) (st : Client) :
  debug (set_ws v st) = debug st.
Proof. reflexivity. Qed.

Lemma md_set_ws_pendingSubscriptions (v : option nat) (st : Client) :
  pendingSubscriptions (set_ws v st) = pendingSubscriptions st.
Proof. reflexivity. Qed.

Lemma md_set_ws_sockets (v : option nat) (st : Client) :
  sockets (set_ws v st) = sockets st.
Proof. reflexivity. Qed.

Lemma md_set_ws_emitted (v : option nat) (st : Client) :
  emitted (set_ws v st) = emitted st.
Proof. reflexivity. Qed.

Lemma md_set_ws_console (v : option nat) (st : Client) :
  console (set_ws v st) = console st.
Proof. reflexivity. Qed.

Lemma md_set_ws_reconnectTimers (v : option nat) (st : Client) :
  reconnectTimers (set_ws v st) = reconnectTimers st.
Proof. reflexivity. Qed.

Lemma md_set_ws_constructorThrows (v : option nat) (st : Client) :
  constructorThrows (set_ws v st) = constructorThrows st.
Proof. reflexivity. Qed.

Lemma md_set_connectionState_ws (v : ConnectionState) (st : Client) :
  ws (set_connectionState v st) = ws st.
Proof. reflexivity. Qed.

Lemma md_set_connectionState_connectionState (v : ConnectionState) (st : Client) :
  connectionState (set_connectionState v st) = v.
Proof. reflexivity. Qed.

Lemma md_set_connectionState_subscriptions (v : ConnectionState) (st : Client) :
  subscriptions (set_connectionState v st) = subscriptions st.
Proof. reflexivity. Qed.

Lemma md_set_connectionState_reconnectAttempts (v : ConnectionState) (st : Client) :
  reconnectAttempts (set_connectionState v st) = reconnectAttempts st.
Proof. reflexivity. Qed.

Lemma md_set_connectionState_heartbeatInterval (v : ConnectionState) (st : Client) :
  heartbeatInterval (set_connectionState v st) = heartbeatInterval st.
Proof. reflexivity. Qed.

Lemma md_set_connectionState_debug (v : ConnectionState) (st : Client) :
  debug (set_connectionState v st) = debug st.
Proof. reflexivity. Qed.

Lemma md_set_connectionState_pendingSubscriptions (v : ConnectionState) (st : Client) :
  pendingSubscriptions (set_connectionState v st) = pendingSubscriptions st.
Proof. reflexivity. Qed.

Lemma md_set_connectionState_sockets (v : ConnectionState) (st : Client) :
  sockets (set_connectionState v st) = sockets st.
Proof. reflexivity. Qed.

Lemma md_set_connectionState_emitted (v : ConnectionState) (st : Client) :
  emitted (set_connectionState v st) = emitted st.
Proof. reflexivity. Qed.

Lemma md_set_connectionState_console (v : ConnectionState) (st : Client) :
  console (set_connectionState v st) = console st.
Proof. reflexivity. Qed.

Lemma md_set_connectionState_reconnectTimers (v : ConnectionState) (st : Client) :
  reconnectTimers (set_connectionState v st) = reconnectTimers st.
Proof. reflexivity. Qed.

Lemma md_set_connectionState_constructorThrows (v : ConnectionState) (st : Client) :
  constructorThrows (set_connectionState v st) = constructorThrows st.
Proof. reflexivity. Qed.

Lemma md_set_subscriptions_ws (v : JsMap.t string SubscriptionData) (st : Client) :
  ws (set_subscriptions v st) = ws st.
Proof. reflexivity. Qed.

Lemma md_set_subscriptions_connectionState (v : JsMap.t string SubscriptionData) (st : Client) :
  connectionState (set_subscriptions v st) = connectionState st.
Proof. reflexivity. Qed.

Lemma md_set_subscriptions_subscriptions (v : JsMap.t string SubscriptionData) (st : Client) :
  subscriptions (set_subscriptions v st) = v.
Proof. reflexivity. Qed.

Lemma md_set_subscriptions_reconnectAttempts (v : JsMap.t string SubscriptionData) (st : Client) :
  reconnectAttempts (set_subscriptions v st) = reconnectAttempts st.
Proof. reflexivity. Qed.

Lemma md_set_subscriptions_heartbeatInterval (v : JsMap.t string SubscriptionData) (st : Client) :
  heartbeatInterval (set_subscriptions v st) = heartbeatInterval st.
Proof. reflexivity. Qed.

Lemma md_set_subscriptions_debug (v : JsMap.t string SubscriptionData) (st : Client) :
  debug (set_subscriptions v st) = debug st.
Proof. reflexivity. Qed.

Lemma md_set_subscriptions_pendingSubscriptions (v : JsMap.t string SubscriptionData) (st : Client) :
  pendingSubscriptions (set_subscriptions v st) = pendingSubscriptions st.
Proof. reflexivity. Qed.

Lemma md_set_subscriptions_sockets (v : JsMap.t string SubscriptionData) (st : Client) :
  sockets (set_subscriptions v st) = sockets st.
Proof. reflexivity. Qed.

Lemma md_set_subscriptions_emitted (v : JsMap.t string SubscriptionData) (st : Client) :
  emitted (set_subscriptions v st) = emitted st.
Proof. reflexivity. Qed.

Lemma md_set_subscriptions_console (v : JsMap.t string SubscriptionData) (st : Client) :
  console (set_subscriptions v st) = console st.
Proof. reflexivity. Qed.

Lemma md_set_subscriptions_reconnectTimers (v : JsMap.t string SubscriptionData) (st : Client) :
  reconnectTimers (set_subscriptions v st) = reconnectTimers st.
Proof. reflexivity. Qed.

Lemma md_set_subscriptions_constructorThrows (v : JsMap.t string SubscriptionData) (st : Client) :
  constructorThrows (set_subscriptions v st) = constructorThrows st.
Proof. reflexivity. Qed.

Lemma md_set_reconnectAttempts_ws (v : nat) (st : Client) :
  ws (set_reconnectAttempts v st) = ws st.
Proof. reflexivity. Qed.

Lemma md_set_reconnectAttempts_connectionState (v : nat) (st : Client) :
  connectionState (set_reconnectAttempts v st) = connectionState st.
Proof. reflexivity. Qed.

Lemma md_set_reconnectAttempts_subscriptions (v : nat) (st : Client) :
  subscriptions (set_reconnectAttempts v st) = subscriptions st.
Proof. reflexivity. Qed.

Lemma md_set_reconnectAttempts_reconnectAttempts (v : nat) (st : Client) :
  reconnectAttempts (set_reconnectAttempts v st) = v.
Proof. reflexivity. Qed.

Lemma md_set_reconnectAttempts_heartbeatInterval (v : nat) (st : Client) :
  heartbeatInterval (set_reconnectAttempts v st) = heartbeatInterval st.
Proof. reflexivity. Qed.

Lemma md_set_reconnectAttempts_debug (v : nat) (st : Client) :
  debug (set_reconnectAttempts v st) = debug st.
Proof. reflexivity. Qed.

Lemma md_set_reconnectAttempts_pendingSubscriptions (v : nat) (st : Client) :
  pendingSubscriptions (set_reconnectAttempts v st) = pendingSubscriptions st.
Proof. reflexivity. Qed.

Lemma md_set_reconnectAttempts_sockets (v : nat) (st : Client) :
  sockets (set_reconnectAttempts v st) = sockets st.
Proof. reflexivity. Qed.

Lemma md_set_reconnectAttempts_emitted (v : nat) (st : Client) :
  emitted (set_reconnectAttempts v st) = emitted st.
Proof. reflexivity. Qed.

Lemma md_set_reconnectAttempts_console (v : nat) (st : Client) :
  console (set_reconnectAttempts v st) = console st.
Proof. reflexivity. Qed.

Lemma md_set_reconnectAttempts_reconnectTimers (v : nat) (st : Client) :
  reconnectTimers (set_reconnectAttempts v st) = reconnectTimers st.
Proof. reflexivity. Qed.

Lemma md_set_reconnectAttempts_constructorThrows (v : nat) (st : Client) :
  constructorThrows (set_reconnectAttempts v st) = constructorThrows st.
Proof. reflexivity. Qed.

Lemma md_set_heartbeatInterval_ws (v : bool) (st : Client) :
  ws (set_heartbeatInterval v st) = ws st.
Proof. reflexivity. Qed.

Lemma md_set_heartbeatInterval_connectionState (v : bool) (st : Client) :
  connectionState (set_heartbeatInterval v st) = connectionState st.
Proof. reflexivity. Qed.

Lemma md_set_heartbeatInterval_subscriptions (v : bool) (st : Client) :
  subscriptions (set_heartbeatInterval v st) = subscriptions st.
Proof. reflexivity. Qed.

Lemma md_set_heartbeatInterval_reconnectAttempts (v : bool) (st : Client) :
  reconnectAttempts (set_heartbeatInterval v st) = reconnectAttempts st.
Proof. reflexivity. Qed.

Lemma md_set_heartbeatInterval_heartbeatInterval (v : bool) (st : Client) :
  heartbeatInterval (set_heartbeatInterval v st) = v.
Proof. reflexivity. Qed.

Lemma md_set_heartbeatInterval_debug (v : bool) (st : Client) :
  debug (set_heartbeatInterval v st) = debug st.
Proof. reflexivity. Qed.

Lemma md_set_heartbeatInterval_pendingSubscriptions (v : bool) (st : Client) :
  pendingSubscriptions (set_heartbeatInterval v st) = pendingSubscriptions st.
Proof. reflexivity. Qed.

Lemma md_set_heartbeatInterval_sockets (v : bool) (st : Client) :
  sockets (set_heartbeatInterval v st) = sockets st.
Proof. reflexivity. Qed.

Lemma md_set_heartbeatInterval_emitted (v : bool) (st : Client) :
  emitted (set_heartbeatInterval v st) = emitted st.
Proof. reflexivity. Qed.

Lemma md_set_heartbeatInterval_console (v : bool) (st : Client) :
  console (set_heartbeatInterval v st) = console st.
Proof. reflexivity. Qed.

Lemma md_set_heartbeatInterval_reconnectTimers (v : bool) (st : Client) :
  reconnectTimers (set_heartbeatInterval v st) = reconnectTimers st.
Proof. reflexivity. Qed.

Lemma md_set_heartbeatInterval_constructorThrows (v : bool) (st : Client) :
  constructorThrows (set_heartbeatInterval v st) = constructorThrows st.
Proof. reflexivity. Qed.

Lemma md_set_pendingSubscriptions_ws (v : list SubscriptionData) (st : Client) :
  ws (set_pendingSubscriptions v st) = ws st.
Proof. reflexivity. Qed.

Lemma md_set_pendingSubscriptions_connectionState (v : list SubscriptionData) (st : Client) :
  connectionState (set_pendingSubscriptions v st) = connectionState st.
Proof. reflexivity. Qed.

Lemma md_set_pendingSubscriptions_subscriptions (v : list SubscriptionData) (st : Client) :
  subscriptions (set_pendingSubscriptions v st) = subscriptions st.
Proof. reflexivity. Qed.

Lemma md_set_pendingSubscriptions_reconnectAttempts (v : list SubscriptionData) (st : Client) :
  reconnectAttempts (set_pendingSubscriptions v st) = reconnectAttempts st.
Proof. reflexivity. Qed.

Lemma md_set_pendingSubscriptions_heartbeatInterval (v : list SubscriptionData) (st : Client) :
  heartbeatInterval (set_pendingSubscriptions v st) = heartbeatInterval st.
Proof. reflexivity. Qed.

Lemma md_set_pendingSubscriptions_debug (v : list SubscriptionData) (st : Client) :
  debug (set_pendingSubscriptions v st) = debug st.
Proof. reflexivity. Qed.

Lemma md_set_pendingSubscriptions_pendingSubscriptions (v : list SubscriptionData) (st : Client) :
  pendingSubscriptions (set_pendingSubscriptions v st) = v.
Proof. reflexivity. Qed.

Lemma md_set_pendingSubscriptions_sockets (v : list SubscriptionData) (st : Client) :
  sockets (set_pendingSubscriptions v st) = sockets st.
Proof. reflexivity. Qed.

Lemma md_set_pendingSubscriptions_emitted (v : list SubscriptionData) (st : Client) :
  emitted (set_pendingSubscriptions v st) = emitted st.
Proof. reflexivity. Qed.

Lemma md_set_pendingSubscriptions_console (v : list SubscriptionData) (st : Client) :
  console (set_pendingSubscriptions v st) = console st.
Proof. reflexivity. Qed.

Lemma md_set_pendingSubscriptions_reconnectTimers (v : list SubscriptionData) (st : Client) :
  reconnectTimers (set_pendingSubscriptions v st) = reconnectTimers st.
Proof. reflexivity. Qed.

Lemma md_set_pendingSubscriptions_constructorThrows (v : list SubscriptionData) (st : Client) :
  constructorThrows (set_pendingSubscriptions v st) = constructorThrows st.
Proof. reflexivity. Qed.

Lemma md_set_sockets_ws (v : list Socket) (st : Client) :
  ws (set_sockets v st) = ws st.
Proof. reflexivity. Qed.

Lemma md_set_sockets_connectionState (v : list Socket) (st : Client) :
  connectionState (set_sockets v st) = connectionState st.
Proof. reflexivity. Qed.

Lemma md_set_sockets_subscriptions (v : list Socket) (st : Client) :
  subscriptions (set_sockets v st) = subscriptions st.
Proof. reflexivity. Qed.

Lemma md_set_sockets_reconnectAttempts (v : list Socket) (st : Client) :
  reconnectAttempts (set_sockets v st) = reconnectAttempts st.
Proof. reflexivity. Qed.

Lemma md_set_sockets_heartbeatInterval (v : list Socket) (st : Client) :
  heartbeatInterval (set_sockets v st) = heartbeatInterval st.
Proof. reflexivity. Qed.

Lemma md_set_sockets_debug (v : list Socket) (st : Client) :
  debug (set_sockets v st) = debug st.
Proof. reflexivity. Qed.

Lemma md_set_sockets_pendingSubscriptions (v : list Socket) (st : Client) :
  pendingSubscriptions (set_sockets v st) = pendingSubscriptions st.
Proof. reflexivity. Qed.

Lemma md_set_sockets_sockets (v : list Socket) (st : Client) :
  sockets (set_sockets v st) = v.
Proof. reflexivity. Qed.

Lemma md_set_sockets_emitted (v : list Socket) (st : Client) :
  emitted (set_sockets v st) = emitted st.
Proof. reflexivity. Qed.

Lemma md_set_sockets_console (v : list Socket) (st : Client) :
  console (set_sockets v st) = console st.
Proof. reflexivity. Qed.

Lemma md_set_sockets_reconnectTimers (v : list Socket) (st : Client) :
  reconnectTimers (set_sockets v st) = reconnectTimers st.
Proof. reflexivity. Qed.

Lemma md_set_sockets_constructorThrows (v : list Socket) (st : Client) :
  constructorThrows (set_sockets v st) = constructorThrows st.
Proof. reflexivity. Qed.

Lemma md_set_emitted_ws (v : list Event) (st : Client) :
  ws (set_emitted v st) = ws st.
Proof. reflexivity. Qed.

Lemma md_set_emitted_connectionState (v : list Event) (st : Client) :
  connectionState (set_emitted v st) = connectionState st.
Proof. reflexivity. Qed.

Lemma md_set_emitted_subscriptions (v : list Event) (st : Client) :
  subscriptions (set_emitted v st) = subscriptions st.
Proof. reflexivity. Qed.

Lemma md_set_emitted_reconnectAttempts (v : list Event) (st : Client) :
  reconnectAttempts (set_emitted v st) = reconnectAttempts st.
Proof. reflexivity. Qed.

Lemma md_set_emitted_heartbeatInterval (v : list Event) (st : Client) :
  heartbeatInterval (set_emitted v st) = heartbeatInterval st.
Proof. reflexivity. Qed.

Lemma md_set_emitted_debug (v : list Event) (st : Client) :
  debug (set_emitted v st) = debug st.
Proof. reflexivity. Qed.

Lemma md_set_emitted_pendingSubscriptions (v : list Event) (st : Client) :
  pendingSubscriptions (set_emitted v st) = pendingSubscriptions st.
Proof. reflexivity. Qed.

Lemma md_set_emitted_sockets (v : list Event) (st : Client) :
  sockets (set_emitted v st) = sockets st.
Proof. reflexivity. Qed.

Lemma md_set_emitted_emitted (v : list Event) (st : Client) :
  emitted (set_emitted v st) = v.
Proof. reflexivity. Qed.

Lemma md_set_emitted_console (v : list Event) (st : Client) :
  console (set_emitted v st) = console st.
Proof. reflexivity. Qed.

Lemma md_set_emitted_reconnectTimers (v : list Event) (st : Client) :
  reconnectTimers (set_emitted v st) = reconnectTimers st.
Proof. reflexivity. Qed.

Lemma md_set_emitted_constructorThrows (v : list Event) (st : Client) :
  constructorThrows (set_emitted v st) = constructorThrows st.
Proof. reflexivity. Qed.

Lemma md_set_console_ws (v : list string) (st : Client) :
  ws (set_console v st) = ws st.
Proof. reflexivity. Qed.

Lemma md_set_console_connectionState (v : list string) (st : Client) :
  connectionState (set_console v st) = connectionState st.
Proof. reflexivity. Qed.

Lemma md_set_console_subscriptions (v : list string) (st : Client) :
  subscriptions (set_console v st) = subscriptions st.
Proof. reflexivity. Qed.

Lemma md_set_console_reconnectAttempts (v : list string) (st : Client) :
  reconnectAttempts (set_console v st) = reconnectAttempts st.
Proof. reflexivity. Qed.

Lemma md_set_console_heartbeatInterval (v : list string) (st : Client) :
  heartbeatInterval (set_console v st) = heartbeatInterval st.
Proof. reflexivity. Qed.

Lemma md_set_console_debug (v : list string) (st : Client) :
  debug (set_console v st) = debug st.
Proof. reflexivity. Qed.

Lemma md_set_console_pendingSubscriptions (v : list string) (st : Client) :
  pendingSubscriptions (set_console v st) = pendingSubscriptions st.
Proof. reflexivity. Qed.

Lemma md_set_console_sockets (v : list string) (st : Client) :
  sockets (set_console v st) = sockets st.
Proof. reflexivity. Qed.

Lemma md_set_console_emitted (v : list string) (st : Client) :
  emitted (set_console v st) = emitted st.
Proof. reflexivity. Qed.

Lemma md_set_console_console (v : list string) (st : Client) :
  console (set_console v st) = v.
Proof. reflexivity. Qed.

Lemma md_set_console_reconnectTimers (v : list string) (st : Client) :
  reconnectTimers (set_console v st) = reconnectTimers st.
Proof. reflexivity. Qed.

Lemma md_set_console_constructorThrows (v : list string) (st : Client) :
  constructorThrows (set_console v st) = constructorThrows st.
Proof. reflexivity. Qed.

Lemma md_set_reconnectTimers_ws (v : nat) (st : Client) :
  ws (set_reconnectTimers v st) = ws st.
Proof. reflexivity. Qed.

Lemma md_set_reconnectTimers_connectionState (v : nat) (st : Client) :
  connectionState (set_reconnectTimers v st) = connectionState st.
Proof. reflexivity. Qed.

Lemma md_set_reconnectTimers_subscriptions (v : nat) (st : Client) :
  subscriptions (set_reconnectTimers v st) = subscriptions st.
Proof. reflexivity. Qed.

Lemma md_set_reconnectTimers_reconnectAttempts (v : nat) (st : Client) :
  reconnectAttempts (set_reconnectTimers v st) = reconnectAttempts st.
Proof. reflexivity. Qed.

Lemma md_set_reconnectTimers_heartbeatInterval (v : nat) (st : Client) :
  heartbeatInterval (set_reconnectTimers v st) = heartbeatInterval st.
Proof. reflexivity. Qed.

Lemma md_set_reconnectTimers_debug (v : nat) (st : Client) :
  debug (set_reconnectTimers v st) = debug st.
Proof. reflexivity. Qed.

Lemma md_set_reconnectTimers_pendingSubscriptions (v : nat) (st : Client) :
  pendingSubscriptions (set_reconnectTimers v st) = pendingSubscriptions st.
Proof. reflexivity. Qed.

Lemma md_set_reconnectTimers_sockets (v : nat) (st : Client) :
  sockets (set_reconnectTimers v st) = sockets st.
Proof. reflexivity. Qed.

Lemma md_set_reconnectTimers_emitted (v : nat) (st : Client) :
  emitted (set_reconnectTimers v st) = emitted st.
Proof. reflexivity. Qed.

Lemma md_set_reconnectTimers_console (v : nat) (st : Client) :
  console (set_reconnectTimers v st) = console st.
Proof. reflexivity. Qed.

Lemma md_set_reconnectTimers_reconnectTimers (v : nat) (st : Client) :
  reconnectTimers (set_reconnectTimers v st) = v.
Proof. reflexivity. Qed.

Lemma md_set_reconnectTimers_constructorThrows (v : nat) (st : Client) :
  constructorThrows (set_reconnectTimers v st) = constructorThrows st.
Proof. reflexivity. Qed.

End MarketDataSetters.

#[export] Hint Rewrite
  @md_set_ws_ws
  @md_set_ws_connectionState
  @md_set_ws_subscriptions
  @md_set_ws_reconnectAttempts
  @md_set_ws_heartbeatInterval
  @md_set_ws_debug
  @md_set_ws_pendingSubscriptions
  @md_set_ws_sockets
  @md_set_ws_emitted
  @md_set_ws_console
  @md_set_ws_reconnectTimers
  @md_set_ws_constructorThrows
  @md_set_connectionState_ws
  @md_set_connectionState_connectionState
  @md_set_connectionState_subscriptions
  @md_set_connectionState_reconnectAttempts
  @md_set_connectionState_heartbeatInterval
  @md_set_connectionState_debug
  @md_set_connectionState_pendingSubscriptions
  @md_set_connectionState_sockets
  @md_set_connectionState_emitted
  @md_set_connectionState_console
  @md_set_connectionState_reconnectTimers
  @md_set_connectionState_constructorThrows
  @md_set_subscriptions_ws
  @md_set_subscriptions_connectionState
  @md_set_subscriptions_subscriptions
  @md_set_subscriptions_reconnectAttempts
  @md_set_subscriptions_heartbeatInterval
  @md_set_subscriptions_debug
  @md_set_subscriptions_pendingSubscriptions
  @md_set_subscriptions_sockets
  @md_set_subscriptions_emitted
  @md_set_subscriptions_console
  @md_set_subscriptions_reconnectTimers
  @md_set_subscriptions_constructorThrows
  @md_set_reconnectAttempts_ws
  @md_set_reconnectAttempts_connectionState
  @md_set_reconnectAttempts_subscriptions
  @md_set_reconnectAttempts_reconnectAttempts
  @md_set_reconnectAttempts_heartbeatInterval
  @md_set_reconnectAttempts_debug
  @md_set_reconnectAttempts_pendingSubscriptions
  @md_set_reconnectAttempts_sockets
  @md_set_reconnectAttempts_emitted
  @md_set_reconnectAttempts_console
  @md_set_reconnectAttempts_reconnectTimers
  @md_set_reconnectAttempts_constructorThrows
  @md_set_heartbeatInterval_ws
  @md_set_heartbeatInterval_connectionState
  @md_set_heartbeatInterval_subscriptions
  @md_set_heartbeatInterval_reconnectAttempts
  @md_set_heartbeatInterval_heartbeatInterval
  @md_set_heartbeatInterval_debug
  @md_set_heartbeatInterval_pendingSubscriptions
  @md_set_heartbeatInterval_sockets
  @md_set_heartbeatInterval_emitted
  @md_set_heartbeatInterval_console
  @md_set_heartbeatInterval_reconnectTimers
  @md_set_heartbeatInterval_constructorThrows
  @md_set_pendingSubscriptions_ws
  @md_set_pendingSubscriptions_connectionState
  @md_set_pendingSubscriptions_subscriptions
  @md_set_pendingSubscriptions_reconnectAttempts
  @md_set_pendingSubscriptions_heartbeatInterval
  @md_set_pendingSubscriptions_debug
  @md_set_pendingSubscriptions_pendingSubscriptions
  @md_set_pendingSubscriptions_sockets
  @md_set_pendingSubscriptions_emitted
  @md_set_pendingSubscriptions_console
  @md_set_pendingSubscriptions_reconnectTimers
  @md_set_pendingSubscriptions_constructorThrows
  @md_set_sockets_ws
  @md_set_sockets_connectionState
  @md_set_sockets_subscriptions
  @md_set_sockets_reconnectAttempts
  @md_set_sockets_heartbeatInterval
  @md_set_sockets_debug
  @md_set_sockets_pendingSubscriptions
  @md_set_sockets_sockets
  @md_set_sockets_emitted
  @md_set_sockets_console
  @md_set_sockets_reconnectTimers
  @md_set_sockets_constructorThrows
  @md_set_emitted_ws
  @md_set_emitted_connectionState
  @md_set_emitted_subscriptions
  @md_set_emitted_reconnectAttempts
  @md_set_emitted_heartbeatInterval
  @md_set_emitted_debug
  @md_set_emitted_pendingSubscriptions
  @md_set_emitted_sockets
  @md_set_emitted_emitted
  @md_set_emitted_console
  @md_set_emitted_reconnectTimers
  @md_set_emitted_constructorThrows
  @md_set_console_ws
  @md_set_console_connectionState
  @md_set_console_subscriptions
  @md_set_console_reconnectAttempts
  @md_set_console_heartbeatInterval
  @md_set_console_debug
  @md_set_console_pendingSubscriptions
  @md_set_console_sockets
  @md_set_console_emitted
  @md_set_console_console
  @md_set_console_reconnectTimers
  @md_set_console_constructorThrows
  @md_set_reconnectTimers_ws
  @md_set_reconnectTimers_connectionState
  @md_set_reconnectTimers_subscriptions
  @md_set_reconnectTimers_reconnectAttempts
  @md_set_reconnectTimers_heartbeatInterval
  @md_set_reconnectTimers_debug
  @md_set_reconnectTimers_pendingSubscriptions
  @md_set_reconnectTimers_sockets
  @md_set_reconnectTimers_emitted
  @md_set_reconnectTimers_console
  @md_set_reconnectTimers_reconnectTimers
  @md_set_reconnectTimers_constructorThrows
  : md_frame.
(** ** The binary decoder: which frames have a readable header *)

Section DecoderHeader.
Import Buffer Decoder.
Local Open Scope string_scope.

(** A zero byte ends the token among the bytes that the frame has at
    offsets 2 to 26. *)
Definition tokenEnds (data : Buffer.t) : bool :=
  existsb (fun b => (byte_value b =? 0)%Z) (firstn 25 (skipn 2 data)).

(** Mode and exchange bytes are there and the token loop does not run
    past the end of the buffer: the frame has all 27 header bytes, or a
    zero byte ends the token before the buffer ends. *)
Definition headerReadable (data : Buffer.t) : bool :=
  (2 <=? length data)%nat && ((27 <=? length data)%nat || tokenEnds data).

Lemma skipn_cons (data : Buffer.t) (n : nat) :
  (n < length data)%nat ->
  exists b, skipn n data = b :: skipn (S n) data.
Proof.
  revert n. induction data as [|x data IH]; intros n Hlt;
    unfold length in *; simpl in Hlt; [lia|].
  destruct n as [|n]; [exists x; reflexivity|].
  destruct (IH n) as [b Hb]; [lia|].
  exists b. exact Hb.
Qed.

Lemma readToken_Normal_iff (data : Buffer.t) (n i : nat) (token : string) :
  (exists s, readToken data i n token = Normal s) <->
  ((n <= List.length (skipn (2 + i) data))%nat \/
   existsb (fun b => (byte_value b =? 0)%Z)
     (firstn n (skipn (2 + i) data)) = true).
Proof.
  revert i token. induction n as [|n IH]; intros i token.
  - cbn [readToken]. split; [intros _; left; lia | eauto].
  - cbn [readToken]. unfold readUInt8.
    destruct (Nat.lt_ge_cases (2 + i) (length data)) as [Hin | Hout].
    + rewrite readUIntLE_in_range by lia.
      destruct (skipn_cons data (2 + i) Hin) as [b Hb]. rewrite Hb.
      cbn [firstn le_value bind existsb List.length].
      replace (byte_value b + 256 * 0)%Z with (byte_value b) by lia.
      destruct (byte_value b =? 0)%Z.
      * split; [intros _; right; reflexivity | eauto].
      * rewrite (IH (S i)). cbn [orb].
        change (2 + S i)%nat with (S (2 + i)). split; intros [H | H];
          [left; lia | now right | left; lia | now right].
    + rewrite readUIntLE_out_of_range by lia. cbn [bind].
      rewrite skipn_all2 by exact Hout. cbn [firstn existsb List.length].
      split; [intros [s Hs]; discriminate | intros [H | H]; [lia | discriminate]].
Qed.

Lemma readToken_header (data : Buffer.t) :
  (2 <= length data)%nat ->
  (exists s, readToken data 0 25 "" = Normal s) <->
  ((27 <=? length data)%nat || tokenEnds data) = true.
Proof.
  intros H2. rewrite readToken_Normal_iff. unfold tokenEnds.
  change (2 + 0)%nat with 2%nat. rewrite length_skipn.
  rewrite orb_true_iff, Nat.leb_le. unfold length. split; intros [H | H];
    [left; lia | now right | left; lia | now right].
Qed.

(** Discharges one length-guarded field. *)
Ltac guarded_field :=
  match goal with
  | |- context [field ?d ?n ?k ?rd ?t] =>
      let t' := fresh "tick" in
      let E := fresh "E" in
      destruct (field_total d n k rd t) as [t' E];
      [ intros ?;
        first [ apply int32_in_range | apply int64_in_range
              | apply double_in_range | apply bigint_in_range ]; lia
      | rewrite E; cbn [bind] ]
  end.

(** Once the header is read, no read of the decoder is out of range:
    each one sits behind a guard on the length. *)
Lemma decode_after_header (data : Buffer.t) (token : string) :
  (2 <= length data)%nat -> readToken data 0 25 "" = Normal token ->
  exists p, decode data = Normal p /\ p_token p = token /\
            p_exchangeType p
            = to_signed 8 (le_value (firstn 1 (skipn 1 data))).
Proof.
  intros Hlen Htok. unfold decode, extract, readInt8.
  rewrite !readUIntLE_in_range by lia. cbn [fmap bind].
  rewrite Htok. cbn [bind]. do 2 guarded_field.
  match goal with
  | |- context [if ?c then ?a else ?b] =>
      assert (Hmode : exists t, (if c then a else b) = Normal t)
  end.
  { destruct (_ =? FeedMode_code LTP)%Z.
    { guarded_field. eauto. }
    destruct (_ =? FeedMode_code QUOTE)%Z; [apply quoteFields_total|].
    destruct (_ =? FeedMode_code SNAP_QUOTE)%Z; [apply snapQuoteFields_total|].
    destruct (_ =? FeedMode_code DEPTH_20)%Z; [apply depth20Fields_total|].
    eauto. }
  destruct Hmode as [t ->]. cbn [bind]. eexists. split; [reflexivity|].
  split; reflexivity.
Qed.

(** The decoder throws exactly on the frames whose header cannot be
    read. *)
Lemma decode_Normal_iff (data : Buffer.t) :
  (exists p, decode data = Normal p) <-> headerReadable data = true.
Proof.
  unfold headerReadable. split.
  - intros [p Hp]. unfold decode in Hp.
    apply bind_Normal in Hp as [q [Hq _]]. unfold extract in Hq.
    apply bind_Normal in Hq as [m [Hm Hq]].
    apply bind_Normal in Hq as [e [He Hq]].
    apply bind_Normal in Hq as [token [Htok _]].
    assert (H2 : (2 <= length data)%nat).
    { unfold readInt8, readUIntLE in He.
      destruct (1 + 1 <=? length data)%nat eqn:E; [|discriminate].
      apply Nat.leb_le in E. lia. }
    rewrite (proj2 (Nat.leb_le _ _) H2). cbn [andb].
    apply readToken_header; eauto.
  - intros H. apply andb_true_iff in H as [H2 Ht].
    apply Nat.leb_le in H2.
    apply (readToken_header data H2) in Ht as [token Htok].
    destruct (decode_after_header data token H2 Htok) as [p [Hp _]].
    eauto.
Qed.

Lemma decode_Throw_iff (data : Buffer.t) :
  (exists e, decode data = Throw e) <-> headerReadable data = false.
Proof.
  pose proof (decode_Normal_iff data) as Hiff.
  destruct (decode data) as [p|e] eqn:Hd.
  - split; [intros [e He]; discriminate|].
    intros Hf. rewrite (proj1 Hiff) in Hf by eauto. discriminate.
  - split; [|eauto]. intros _.
    destruct (headerReadable data); [|reflexivity].
    destruct (proj2 Hiff eq_refl) as [p Hp]. discriminate.
Qed.
End DecoderHeader.


(** ** The market-data client: decoding inside the message listener *)

Section MarketDataMessages.
Import MarketData.
Local Open Scope string_scope.

Variable JSON_parse : string -> Completion TextMessage.

Lemma enabled_log (message : string) (i : Input) (st : Client) :
  enabled i (log message st) = enabled i st.
Proof.
  destruct i; unfold enabled, socketState;
    autorewrite with md_frame; reflexivity.
Qed.

Lemma parseBinaryMessage_Normal (frame : Buffer.t) (st : Client) :
  exists st', parseBinaryMessage frame st = Normal st'.
Proof.
  unfold parseBinaryMessage.
  destruct (Decoder.decode frame) as [p|e]; simpl; [|eauto].
  destruct (JsMap.get _ _); simpl; eauto.
Qed.

Lemma parseBinaryMessage_dropped (frame : Buffer.t) (st : Client) (e : Exn) :
  Decoder.decode frame = Throw e ->
  parseBinaryMessage frame st = Normal (log "Error parsing binary message:" st).
Proof. intros Hd. unfold parseBinaryMessage. rewrite Hd. reflexivity. Qed.

(** What a decoded frame makes the client emit. *)
Lemma parseBinaryMessage_emits (frame : Buffer.t) (st : Client)
  (p : Decoder.Parsed) :
  Decoder.decode frame = Normal p ->
  exists st',
    parseBinaryMessage frame st = Normal st' /\
    emitted st' =
      (emitted st
         ++ {| channel := "tick"; payload := TickPayload (Decoder.p_tick p) |}
         :: match JsMap.get
                    (getSubscriptionKey (Decoder.p_exchangeType p)
                       (Decoder.p_token p)) (subscriptions st) with
            | Some subscription =>
                [{| channel := "tick:" ++ correlationId subscription;
                    payload := TickPayload (Decoder.p_tick p) |}]
            | None => []
            end)%list.
Proof.
  intros Hd. unfold parseBinaryMessage. rewrite Hd. simpl.
  autorewrite with md_frame.
  destruct (JsMap.get _ (subscriptions st)) as [sub|]; eexists;
    (split; [reflexivity|]).
  - unfold emit at 1. simpl. unfold emit. simpl.
    autorewrite with md_frame. rewrite <- app_assoc. reflexivity.
  - unfold emit. simpl. autorewrite with md_frame. reflexivity.
Qed.

Lemma onMessage_Normal (data : WsData) (st : Client) :
  exists st', onMessage JSON_parse data st = Normal st'.
Proof.
  unfold onMessage. destruct data as [s | frame].
  - destruct (s =? "pong"); simpl; [eauto|].
    destruct (JSON_parse s) as [m|e]; simpl; [|eauto].
    destruct (truthy (errorCode m) || truthy (errorMessage m)); simpl; eauto.
  - destruct (parseBinaryMessage_Normal frame st) as [st' ->]. simpl. eauto.
Qed.

Lemma enabled_emit (name : string) (p : Payload) (i : Input) (st : Client) :
  enabled i (emit name p st) = enabled i st.
Proof.
  destruct i; unfold enabled, socketState;
    autorewrite with md_frame; reflexivity.
Qed.

(** C9 (as amended). The message listener, and with it the binary
    decoder, returns normally on every input: whatever the bytes of
    [frame] (empty, truncated, of an unknown layout), no exception leaves
    [parseBinaryMessage] or the listener. A frame is logged and dropped
    exactly when its header cannot be read, that is when it has fewer than
    2 bytes, or fewer than 27 bytes with no zero byte ending the token:
    the only effect then is the line that [log] writes. Every other frame
    is decoded and emitted on [tick], and on the channel of its
    subscription when the registry has one; that includes a truncated
    frame and a frame with an unknown mode byte. In both cases the
    registry and the connection are untouched, every event that was
    deliverable still is, and the event loop goes on with the frames that
    follow. *)
Theorem binary_frames_dropped_iff_header_unreadable (frame : Buffer.t)
  (st : Client) :
  (forall data, exists st', onMessage JSON_parse data st = Normal st') /\
  exists st',
    onMessage JSON_parse (Binary frame) st = Normal st' /\
    parseBinaryMessage frame st = Normal st' /\
    subscriptions st' = subscriptions st /\
    connectionState st' = connectionState st /\
    (forall i, enabled i st' = enabled i st) /\
    (if headerReadable frame then
       exists p,
         Decoder.decode frame = Normal p /\
         emitted st' =
           (emitted st
              ++ {| channel := "tick";
                    payload := TickPayload (Decoder.p_tick p) |}
              :: match JsMap.get
                         (getSubscriptionKey (Decoder.p_exchangeType p)
                            (Decoder.p_token p)) (subscriptions st) with
                 | Some subscription =>
                     [{| channel := "tick:" ++ correlationId subscription;
                         payload := TickPayload (Decoder.p_tick p) |}]
                 | None => []
                 end)%list
     else
       (exists e, Decoder.decode frame = Throw e) /\
       st' = log "Error parsing binary message:" st /\
       emitted st' = emitted st) /\
    (forall id rest,
       enabled (SocketMessage id (Binary frame)) st = true ->
       run JSON_parse st (SocketMessage id (Binary frame) :: rest)
       = run JSON_parse st' rest).
Proof.
  split; [intros data; apply onMessage_Normal|].
  destruct (parseBinaryMessage_Normal frame st) as [st' Hp].
  assert (Hm : onMessage JSON_parse (Binary frame) st = Normal st')
    by (unfold onMessage; rewrite Hp; reflexivity).
  exists st'. split; [exact Hm|]. split; [exact Hp|].
  assert (Hrun : forall id rest,
            enabled (SocketMessage id (Binary frame)) st = true ->
            run JSON_parse st (SocketMessage id (Binary frame) :: rest)
            = run JSON_parse st' rest).
  { intros id rest Hen. cbn [run]. rewrite Hen. cbn [step]. rewrite Hm.
    reflexivity. }
  destruct (headerReadable frame) eqn:Hh.
  - destruct (proj2 (decode_Normal_iff frame) Hh) as [p Hd].
    destruct (parseBinaryMessage_emits frame st p Hd) as [st2 [Hp2 He]].
    rewrite Hp in Hp2. injection Hp2 as <-.
    assert (Hkeep : subscriptions st' = subscriptions st /\
                    connectionState st' = connectionState st /\
                    forall i, enabled i st' = enabled i st).
    { unfold parseBinaryMessage in Hp. rewrite Hd in Hp. simpl in Hp.
      destruct (JsMap.get _ _); injection Hp as <-;
        autorewrite with md_frame; (split; [reflexivity|]);
        (split; [reflexivity|]); intros i;
        rewrite ?enabled_emit, ?enabled_log; reflexivity. }
    destruct Hkeep as [Hs [Hc Hen]].
    repeat split; try assumption. exists p. split; assumption.
  - destruct (proj2 (decode_Throw_iff frame) Hh) as [e Hd].
    rewrite (parseBinaryMessage_dropped frame st e Hd) in Hp.
    injection Hp as <-. autorewrite with md_frame.
    repeat split; try reflexivity; try assumption.
    + intros i. apply enabled_log.
    + eauto.
Qed.

(** C9, counterexample. A 27-byte frame whose mode byte is 9, a value of
    no feed mode, and a frame cut after 8 bytes, inside its padding, are
    not dropped: the client emits each of them on [tick], with the three
    header fields only. *)
Lemma unknown_layout_emitted_as_tick :
  let unknown := Examples.header 9 1 in
  let truncated := firstn 8 (Examples.header 1 1) in
  let headerOnly (mode : Z) : Tick :=
    [("mode", Decoder.num mode); ("exchangeType", Decoder.num 1);
     ("token", VStr "26000")] in
  (exists st',
     onMessage (fun _ => Throw SyntaxError) (Binary unknown) (new false)
       = Normal st' /\
     emitted st' = [{| channel := "tick";
                       payload := TickPayload (headerOnly 9) |}]) /\
  (exists st',
     onMessage (fun _ => Throw SyntaxError) (Binary truncated) (new false)
       = Normal st' /\
     emitted st' = [{| channel := "tick";
                       payload := TickPayload (headerOnly 1) |}]).
Proof.
  split; eexists; (split; [vm_compute; reflexivity | reflexivity]).
Qed.

(** The empty buffer and a buffer cut inside its token are dropped; a
    frame of an unknown mode is not: it is emitted with its header. *)
Lemma undecodable_frames :
  Decoder.decode [] = Throw (ERR_OUT_OF_RANGE 0) /\
  Decoder.decode (firstn 4 (Examples.header 1 1)) = Throw (ERR_OUT_OF_RANGE 4) /\
  exists p, Decoder.decode (Examples.header 9 1) = Normal p /\
            Decoder.p_token p = "26000".
Proof.
  split; [reflexivity|]. split; [reflexivity|].
  eexists. split; [vm_compute; reflexivity | reflexivity].
Qed.
End MarketDataMessages.

(** ** The market-data client: validation, disconnect, reconnect *)

Section MarketDataLifecycle.
Import MarketData.
Local Open Scope string_scope.

Lemma ExchangeType_eqb_neq (a b : ExchangeType) :
  ExchangeType_eqb a b = false <-> a <> b.
Proof.
  split.
  - intros E Heq. apply ExchangeType_eqb_eq in Heq. congruence.
  - intros Hne. destruct (ExchangeType_eqb a b) eqn:E; [|reflexivity].
    apply ExchangeType_eqb_eq in E. contradiction.
Qed.

Lemma ConnectionState_eqb_eq (a b : ConnectionState) :
  ConnectionState_eqb a b = true <-> a = b.
Proof. destruct a, b; simpl; split; congruence. Qed.

Lemma ConnectionState_eqb_neq (a b : ConnectionState) :
  ConnectionState_eqb a b = false <-> a <> b.
Proof. destruct a, b; simpl; split; congruence. Qed.

(** The frames sent so far on socket [id]. *)
Definition sentOn (id : nat) (st : Client) : list Frame :=
  match nth_error (sockets st) id with
  | Some s => sent s
  | None => []
  end.

(** All calls of [close()] so far. *)
Definition closeCount (st : Client) : nat :=
  fold_right (fun s n => (closeCalls s + n)%nat) 0%nat (sockets st).

Lemma nth_error_update_nth {A : Type} (f : A -> A) (l : list A) (n m : nat) :
  nth_error (update_nth n f l) m =
  if (m =? n)%nat then option_map f (nth_error l m) else nth_error l m.
Proof.
  revert n m. induction l as [|x l IH]; intros n m.
  - destruct (m =? n)%nat, n, m; reflexivity.
  - destruct n as [|n], m as [|m]; simpl; try reflexivity. apply IH.
Qed.

Lemma sentOn_ws_send (id : nat) (frame : Frame) (st : Client) :
  (id < List.length (sockets st))%nat ->
  sentOn id (ws_send id frame st) = (sentOn id st ++ [frame])%list.
Proof.
  intros Hlt. unfold sentOn, ws_send, update_socket. simpl.
  rewrite nth_error_update_nth, Nat.eqb_refl.
  destruct (nth_error (sockets st) id) as [s|] eqn:E; [reflexivity|].
  apply nth_error_None in E. lia.
Qed.

Lemma socketOpen_lt (id : nat) (st : Client) :
  socketOpen id st = true -> (id < List.length (sockets st))%nat.
Proof.
  unfold socketOpen. destruct (nth_error (sockets st) id) eqn:E;
    [|discriminate].
  intros _. apply nth_error_Some. congruence.
Qed.

Lemma tokenList_copy (groups : list TokenGroup) :
  map (fun item => {| g_exchangeType := g_exchangeType item;
                      tokens := tokens item |}) groups = groups.
Proof.
  induction groups as [|[e t] l IH]; simpl; [reflexivity|].
  now rewrite IH.
Qed.

(** A request that passes the two guards of [sendSubscriptionRequest] is
    sent as it is. *)
Lemma sendSubscriptionRequest_sends (cid : string) (feedMode : FeedMode)
  (tokenList : list TokenGroup) (action : Action) (id : nat) (st : Client) :
  ws st = Some id -> socketOpen id st = true ->
  FeedMode_eqb feedMode DEPTH_20 && (50 <? nseCmTokenCount tokenList)%nat
    = false ->
  sendSubscriptionRequest cid feedMode tokenList action st =
  ws_send id
    (RequestFrame {| correlationID := cid; action := action;
                     mode := feedMode; tokenList := tokenList |})
    (log "Sending request" st).
Proof.
  intros Hws Hopen Hlimit. unfold sendSubscriptionRequest.
  rewrite Hws, Hopen, Hlimit. simpl. now rewrite tokenList_copy.
Qed.

(** C6. DEPTH_20 is validated before anything else happens: [subscribe]
    on an exchange other than NSE_CM is rejected with the message of the
    source and leaves the whole state, sockets included, as it was, so no
    frame is sent; on NSE_CM it resolves with status true, and on an open
    connection records the entry and sends its subscribe frame.
    [subscribeMultiple] is rejected, again with the state untouched, when
    a symbol of the batch is not NSE_CM or the batch has more than 50
    symbols. *)
Theorem depth20_validation (st : Client) (correlationId : string) :
  (forall exchangeType token,
     exchangeType <> NSE_CM ->
     subscribe correlationId exchangeType token DEPTH_20 st =
     (st, Rejected {| status := false;
                      message := "20-Depth Mode is available only for NSE_CM segment" |})) /\
  (forall token,
     exists st' r,
       subscribe correlationId NSE_CM token DEPTH_20 st = (st', Resolved r) /\
       status r = true /\
       forall id,
         connectionState st = CONNECTED -> ws st = Some id ->
         socketOpen id st = true ->
         JsMap.get (getSubscriptionKey 1 token) (subscriptions st')
         = Some {| correlationId := correlationId; exchangeType := NSE_CM;
                   token := token; feedMode := DEPTH_20 |} /\
         sentOn id st' =
           (sentOn id st
              ++ [RequestFrame
                    {| correlationID := correlationId; action := SUBSCRIBE;
                       mode := DEPTH_20;
                       tokenList := [{| g_exchangeType := NSE_CM;
                                        tokens := [token] |}] |}])%list) /\
  (forall symbols,
     (exists s, In s symbols /\ s_exchangeType s <> NSE_CM)
     \/ (50 < List.length symbols)%nat ->
     exists r,
       subscribeMultiple correlationId symbols DEPTH_20 st = (st, Rejected r)
       /\ status r = false).
Proof.
  split; [|split].
  - intros exchangeType token Hne. unfold subscribe.
    apply ExchangeType_eqb_neq in Hne. rewrite Hne. reflexivity.
  - intros token. unfold subscribe. simpl.
    destruct (ConnectionState_eqb (connectionState st) CONNECTED) eqn:Hc;
      simpl.
    + do 2 eexists. split; [reflexivity|]. split; [reflexivity|].
      intros id _ Hws Hopen.
      rewrite sendSubscriptionRequest_sends with (id := id);
        [| exact Hws | exact Hopen | reflexivity].
      split.
      * unfold ws_send. autorewrite with md_frame. simpl.
        apply get_set_same.
      * rewrite sentOn_ws_send.
        -- unfold sentOn. autorewrite with md_frame. reflexivity.
        -- autorewrite with md_frame. simpl.
           now apply socketOpen_lt in Hopen.
    + do 2 eexists. split; [reflexivity|]. split; [reflexivity|].
      intros id Hcon. apply ConnectionState_eqb_neq in Hc. contradiction.
  - intros symbols [[s [Hin Hne]] | Hlen]; unfold subscribeMultiple; simpl.
    + assert (Hex : existsb
                (fun s => negb (ExchangeType_eqb (s_exchangeType s) NSE_CM))
                symbols = true).
      { apply existsb_exists. exists s. split; [exact Hin|].
        apply ExchangeType_eqb_neq in Hne. now rewrite Hne. }
      rewrite Hex. eexists. split; reflexivity.
    + destruct (existsb _ symbols); [eexists; split; reflexivity|].
      apply Nat.ltb_lt in Hlen. rewrite Hlen. eexists. split; reflexivity.
Qed.

(** C6 at concrete calls on a fresh client: BSE_CM is rejected, NSE_CM is
    queued, a batch of 51 NSE_CM symbols is rejected. *)
Lemma depth20_validation_witness :
  BSE_CM <> NSE_CM /\
  subscribe "d1" BSE_CM "500" DEPTH_20 (new false) =
    (new false,
     Rejected {| status := false;
                 message := "20-Depth Mode is available only for NSE_CM segment" |}) /\
  (exists r,
     subscribeMultiple "d1"
       (map (fun i => {| s_exchangeType := NSE_CM;
                         s_token := string_of_nat i |}) (seq 0 51))
       DEPTH_20 (new false) = (new false, Rejected r)
     /\ status r = false).
Proof.
  destruct (depth20_validation (new false) "d1") as [Hsub [_ Hmulti]].
  assert (Hne : BSE_CM <> NSE_CM) by discriminate.
  split; [exact Hne|]. split.
  - exact (Hsub BSE_CM "500" Hne).
  - apply Hmulti. right. vm_compute. lia.
Defined.

(** *** disconnect *)

Lemma closeCount_update_nth (f : Socket -> Socket) (l : list Socket) (n : nat) :
  (forall s, closeCalls (f s) = S (closeCalls s)) ->
  (n < List.length l)%nat ->
  fold_right (fun s k => (closeCalls s + k)%nat) 0%nat (update_nth n f l) =
  S (fold_right (fun s k => (closeCalls s + k)%nat) 0%nat l).
Proof.
  intros Hf. revert n. induction l as [|x l IH]; intros [|n] Hlt; simpl in *;
    try lia.
  - rewrite Hf. reflexivity.
  - rewrite IH by lia. lia.
Qed.

(** [disconnect] outside DISCONNECTED, by whether a socket is held. *)
Lemma disconnect_active (st : Client) :
  connectionState st <> DISCONNECTED ->
  disconnect st =
  let st1 :=
    set_pendingSubscriptions []
      (clearHeartbeat
         (set_connectionState DISCONNECTING (log "Disconnecting" st))) in
  match ws st with
  | Some id =>
      emit "disconnect" UserDisconnect
        (set_connectionState DISCONNECTED
           (set_ws None (ws_close id (set_subscriptions [] st1))))
  | None => st1
  end.
Proof.
  intros Hs. apply ConnectionState_eqb_neq in Hs.
  unfold disconnect. rewrite Hs. cbv zeta.
  autorewrite with md_frame. reflexivity.
Qed.

(** [disconnect] outside DISCONNECTED on a client that holds no socket:
    the steps behind [if (this.ws)] are skipped. *)
Lemma disconnect_no_socket (st : Client) :
  connectionState st <> DISCONNECTED -> ws st = None ->
  disconnect st =
  set_pendingSubscriptions []
    (clearHeartbeat
       (set_connectionState DISCONNECTING (log "Disconnecting" st))).
Proof.
  intros Hs Hws. rewrite (disconnect_active st Hs). cbv zeta.
  rewrite Hws. reflexivity.
Qed.

(** [disconnect] case by case. It does nothing but log when the state is
    DISCONNECTED. In every other state it stops the heartbeat and empties
    the pending queue; if the client holds a socket it moreover empties
    the registry, calls [close()] once on that socket, drops the handle,
    moves to DISCONNECTED and emits [disconnect]. A [disconnect] that
    follows a [disconnect] closes nothing. *)
Theorem disconnect_spec (st : Client) :
  (connectionState st = DISCONNECTED ->
   disconnect st = log "Already disconnected" st) /\
  (connectionState st <> DISCONNECTED ->
   heartbeatInterval (disconnect st) = false /\
   pendingSubscriptions (disconnect st) = [] /\
   forall id, ws st = Some id ->
     subscriptions (disconnect st) = [] /\
     sockets (disconnect st) = sockets (ws_close id st) /\
     (id < List.length (sockets st) ->
      closeCount (disconnect st) = S (closeCount st))%nat /\
     ws (disconnect st) = None /\
     connectionState (disconnect st) = DISCONNECTED /\
     emitted (disconnect st) =
       (emitted st
          ++ [{| channel := "disconnect"; payload := UserDisconnect |}])%list)
  /\ sockets (disconnect (disconnect st)) = sockets (disconnect st).
Proof.
  split; [|split].
  - intros Hs. unfold disconnect. rewrite Hs. reflexivity.
  - intros Hs. rewrite (disconnect_active st Hs).
    destruct st as [w cs subs ra hb dbg pend socks em con rt ct].
    simpl ws. split; [|split].
    + destruct w, dbg, hb; reflexivity.
    + destruct w, dbg, hb; reflexivity.
    + intros id ->. repeat split; try (destruct dbg, hb; reflexivity).
      intros Hlt. simpl in Hlt.
      assert (Hc : closeCount (ws_close id
                     {| ws := Some id; connectionState := cs;
                        subscriptions := subs; reconnectAttempts := ra;
                        heartbeatInterval := hb; debug := dbg;
                        pendingSubscriptions := pend; sockets := socks;
                        emitted := em; console := con;
                        reconnectTimers := rt; constructorThrows := ct |})
                   = S (closeCount
                          {| ws := Some id; connectionState := cs;
                             subscriptions := subs; reconnectAttempts := ra;
                             heartbeatInterval := hb; debug := dbg;
                             pendingSubscriptions := pend; sockets := socks;
                             emitted := em; console := con;
                             reconnectTimers := rt;
                             constructorThrows := ct |})).
      { unfold closeCount, ws_close, update_socket. simpl.
        apply closeCount_update_nth; auto. }
      rewrite <- Hc. destruct dbg, hb; reflexivity.
  - destruct (ConnectionState_eqb (connectionState st) DISCONNECTED) eqn:Hs.
    + apply ConnectionState_eqb_eq in Hs.
      assert (H1 : disconnect st = log "Already disconnected" st)
        by (unfold disconnect; rewrite Hs; reflexivity).
      rewrite H1. unfold disconnect. autorewrite with md_frame.
      rewrite Hs. cbn [ConnectionState_eqb].
      autorewrite with md_frame. reflexivity.
    + apply ConnectionState_eqb_neq in Hs.
      destruct (ws st) as [id|] eqn:Hws.
      * assert (Hd : connectionState (disconnect st) = DISCONNECTED).
        { rewrite (disconnect_active st Hs). cbv zeta. rewrite Hws.
          now autorewrite with md_frame. }
        unfold disconnect at 1. rewrite Hd. cbn [ConnectionState_eqb].
        now autorewrite with md_frame.
      * rewrite (disconnect_no_socket st Hs Hws).
        set (st1 := set_pendingSubscriptions [] _).
        assert (Hn1 : connectionState st1 <> DISCONNECTED)
          by (subst st1; autorewrite with md_frame; discriminate).
        assert (Hw1 : ws st1 = None)
          by (subst st1; now autorewrite with md_frame).
        rewrite (disconnect_no_socket st1 Hn1 Hw1).
        now autorewrite with md_frame.
Qed.

(** On a connected client with one open socket. *)
Lemma disconnect_spec_witness :
  let st := step (fun _ => Throw SyntaxError)
              (step (fun _ => Throw SyntaxError) (new false) CallConnect)
              (SocketOpen 0 0) in
  connectionState st <> DISCONNECTED /\ ws st = Some 0%nat /\
  connectionState (disconnect st) = DISCONNECTED /\
  closeCount (disconnect st) = 1%nat /\
  closeCount (disconnect (disconnect st)) = 1%nat.
Proof.
  intros st.
  destruct (disconnect_spec st) as [_ [Hactive Hagain]].
  assert (Hs : connectionState st <> DISCONNECTED) by (vm_compute; discriminate).
  destruct (Hactive Hs) as [_ [_ Hws]].
  destruct (Hws 0%nat eq_refl) as [_ [_ [Hclose [_ [Hstate _]]]]].
  split; [exact Hs|]. split; [reflexivity|]. split; [exact Hstate|].
  split.
  - rewrite Hclose by (vm_compute; lia). reflexivity.
  - unfold closeCount. rewrite Hagain.
    fold (closeCount (disconnect st)).
    rewrite Hclose by (vm_compute; lia). reflexivity.
Defined.

(** When [new WebSocket] throws, [connect] leaves the client in ERROR
    without a socket. [disconnect] in that state, which is not
    DISCONNECTED, neither reaches DISCONNECTED nor emits [disconnect]. *)
Lemma disconnect_without_socket :
  let st := connect false (newWithoutSockets false) in
  connectionState st = ERROR /\
  connectionState (disconnect st) = DISCONNECTING /\
  emitted (disconnect st) = emitted st.
Proof. repeat split. Qed.

(** The same state is reached with a working constructor, when the user
    disconnects while the socket is still connecting and the aborted
    handshake reports its error. *)
Lemma disconnect_without_socket_by_events :
  exists st,
    run (fun _ => Throw SyntaxError) (new false)
      [CallSubscribe "a" NSE_CM "26000" LTP; CallDisconnect; SocketError 0]
      = Some st /\
    connectionState st = ERROR /\ ws st = None /\
    connectionState (disconnect st) = DISCONNECTING /\
    emitted (disconnect st) = emitted st.
Proof. eexists. split; [vm_compute; reflexivity|]. repeat split. Qed.

(** C7, the defect. In a state other than DISCONNECTED in which the
    client holds no socket, [disconnect] stops at DISCONNECTING: the move
    to DISCONNECTED, the [disconnect] event and the clearing of the
    registry sit behind [if (this.ws)] and do not happen. Nothing takes
    the client out of that state: a second [disconnect] leaves it there,
    still without the event, and a [subscribe] that follows is queued
    without a connection being started, since the client is neither
    CONNECTED nor DISCONNECTED. *)
Theorem disconnect_without_socket_stays_disconnecting (st : Client) :
  connectionState st <> DISCONNECTED -> ws st = None ->
  let st' := disconnect st in
  connectionState st' = DISCONNECTING /\
  emitted st' = emitted st /\
  subscriptions st' = subscriptions st /\
  sockets st' = sockets st /\
  connectionState (disconnect st') = DISCONNECTING /\
  emitted (disconnect st') = emitted st /\
  forall correlationId exchangeType token feedMode st'' r,
    subscribe correlationId exchangeType token feedMode st'
      = (st'', Resolved r) ->
    message r = "Subscription queued" /\
    connectionState st'' = DISCONNECTING /\
    ws st'' = None /\ sockets st'' = sockets st /\
    emitted st'' = emitted st /\
    pendingSubscriptions st'' =
      [{| correlationId := correlationId; exchangeType := exchangeType;
          token := token; feedMode := feedMode |}].
Proof.
  intros Hs Hws st'. subst st'.
  rewrite (disconnect_no_socket st Hs Hws).
  set (st1 := set_pendingSubscriptions [] _).
  assert (Hc1 : connectionState st1 = DISCONNECTING)
    by (subst st1; now autorewrite with md_frame).
  assert (Hw1 : ws st1 = None)
    by (subst st1; now autorewrite with md_frame).
  assert (He1 : emitted st1 = emitted st)
    by (subst st1; now autorewrite with md_frame).
  assert (Hr1 : subscriptions st1 = subscriptions st)
    by (subst st1; now autorewrite with md_frame).
  assert (Hk1 : sockets st1 = sockets st)
    by (subst st1; now autorewrite with md_frame).
  assert (Hp1 : pendingSubscriptions st1 = [])
    by (subst st1; now autorewrite with md_frame).
  assert (Hn1 : connectionState st1 <> DISCONNECTED)
    by (rewrite Hc1; discriminate).
  clearbody st1.
  repeat (split; [assumption|]).
  rewrite (disconnect_no_socket st1 Hn1 Hw1).
  split; [now autorewrite with md_frame|].
  split; [now autorewrite with md_frame|].
  intros c e t m st'' r. unfold subscribe.
  destruct (FeedMode_eqb m DEPTH_20 && negb (ExchangeType_eqb e NSE_CM));
    [discriminate|].
  rewrite Hc1. cbn [ConnectionState_eqb negb].
  autorewrite with md_frame. rewrite Hc1. cbn [ConnectionState_eqb].
  intros [= <- <-]. autorewrite with md_frame.
  rewrite Hc1, Hw1, Hk1, He1, Hp1. repeat split.
Qed.

(** C7 at the failing input: the constructor of the socket throws (as
    the [ws] package does when bundled for a browser), [connect] leaves
    the client in ERROR without a socket, and the user calls
    [disconnect]. *)
Lemma disconnect_without_socket_stays_disconnecting_witness :
  let st := connect false (newWithoutSockets false) in
  connectionState st = ERROR /\
  connectionState (disconnect st) = DISCONNECTING /\
  emitted (disconnect st)
    = [{| channel := "error"; payload := TransportError |}] /\
  connectionState (disconnect (disconnect st)) = DISCONNECTING.
Proof.
  intros st.
  assert (Hs : connectionState st <> DISCONNECTED)
    by (vm_compute; discriminate).
  destruct (disconnect_without_socket_stays_disconnecting st Hs eq_refl)
    as [Hc [He [_ [_ [Hc2 _]]]]].
  split; [reflexivity|]. split; [exact Hc|]. split; [|exact Hc2].
  rewrite He. reflexivity.
Defined.

(** *** Reconnection after an explicit disconnect *)

(** The ['close'] listener does not look at how the socket came to close.
    Run on the state that [disconnect] leaves, it emits [reconnecting]
    and arms the reconnect timer as long as attempts are left. *)
Lemma close_after_disconnect_reconnects (st : Client) (id : nat) (code : Z)
  (reason : string) :
  connectionState st <> DISCONNECTED -> ws st = Some id ->
  (reconnectAttempts st < maxReconnectAttempts)%nat ->
  let st' := onClose code reason (disconnect st) in
  emitted st' =
    (emitted st
       ++ [{| channel := "disconnect"; payload := UserDisconnect |};
           {| channel := "disconnect"; payload := CloseInfo code reason |};
           {| channel := "reconnecting";
              payload := Attempt (S (reconnectAttempts st)) |}])%list /\
  reconnectTimers st' = S (reconnectTimers st).
Proof.
  intros Hs Hws Hatt. rewrite (disconnect_active st Hs).
  destruct st as [w cs subs ra hb dbg pend socks em con rt ct].
  simpl in Hws, Hatt. subst w. unfold maxReconnectAttempts in Hatt.
  destruct dbg, hb;
    do 5 (destruct ra as [|ra];
          [simpl; rewrite <- !app_assoc; split; reflexivity|]);
    lia.
Qed.

(** C2, at the failing input. The user connects, the socket opens, the
    user calls [disconnect()], and the socket delivers the close event
    that [close()] asked for. The client then emits [reconnecting], and
    when the timer fires it opens a second socket: an automatic reconnect
    follows the explicit disconnect. *)
Theorem reconnect_follows_explicit_disconnect
  (JSON_parse : string -> Completion TextMessage) :
  exists st,
    run JSON_parse (new false)
      [CallConnect; SocketOpen 0 0; CallDisconnect;
       SocketClose 0 1005 ""; ReconnectTimer] = Some st /\
    map channel (emitted st) =
      ["connected"; "disconnect"; "disconnect"; "reconnecting"] /\
    closeCount st = 1%nat /\
    List.length (sockets st) = 2%nat /\
    ws st = Some 1%nat /\
    connectionState st = CONNECTING.
Proof. eexists. split; [vm_compute; reflexivity|]. repeat split. Qed.
End MarketDataLifecycle.

(** ** The market-data client: correlation ids of batched subscriptions *)

Section MarketDataBatches.
Import MarketData.
Local Open Scope string_scope.


(** Two symbols with one registry key are one symbol: the decimal code
    of an exchange holds no colon. *)
Lemma symbolKey_inj (s s' : Symbol) : symbolKey s = symbolKey s' -> s = s'.
Proof.
  destruct s as [e t], s' as [e' t']. unfold symbolKey, getSubscriptionKey.
  destruct e, e'; cbv; intros Heq; inversion Heq; reflexivity.
Qed.








End MarketDataBatches.

(** ** Grouping with an insertion-ordered map *)

(** The elements of a list in the order of their first occurrence. *)
Fixpoint distinct {K : Type} `{KeyEq K} (l : list K) : list K :=
  match l with
  | [] => []
  | x :: l' => x :: filter (fun y => negb (keqb y x)) (distinct l')
  end.

Section Grouping.
Context {K : Type} `{KeyEq K}.



Lemma In_distinct (k : K) (l : list K) : In k (distinct l) <-> In k l.
Proof.
  induction l as [|x l IH]; simpl; [tauto|].
  rewrite filter_In, IH. split.
  - intros [Hx | [Hin _]]; auto.
  - intros [Hx | Hin]; [now left|].
    destruct (keqb k x) eqn:E.
    + apply keqb_eq in E. now left.
    + right. split; [exact Hin | reflexivity].
Qed.

Lemma NoDup_filter {A : Type} (f : A -> bool) (l : list A) :
  NoDup l -> NoDup (filter f l).
Proof.
  induction 1 as [|x l Hnotin Hnd IH]; simpl; [constructor|].
  destruct (f x); [|exact IH].
  constructor; [|exact IH]. rewrite filter_In. tauto.
Qed.

Lemma NoDup_distinct (l : list K) : NoDup (distinct l).
Proof.
  induction l as [|x l IH]; simpl; constructor.
  - rewrite filter_In. intros [_ Hk]. cbv beta in Hk.
    rewrite keqb_refl in Hk. discriminate.
  - now apply NoDup_filter.
Qed.




Context {A V : Type}.
Variable key : A -> K.
Variable item : A -> V.








End Grouping.

(** ** The market-data client: the pending queue *)

Section PendingQueue.
Import MarketData.
Local Open Scope string_scope.

(** The tokens of the entries of [subs] with feed mode [m] on exchange
    [e], in the order of [subs]. *)
Definition tokensOf (m : FeedMode) (e : ExchangeType)
  (subs : list SubscriptionData) : list string :=
  map token
    (filter (fun s => FeedMode_eqb (feedMode s) m
                      && ExchangeType_eqb (exchangeType s) e) subs).

Definition withMode (m : FeedMode) (subs : list SubscriptionData)
  : list SubscriptionData :=
  filter (fun s => FeedMode_eqb (feedMode s) m) subs.

(** The flush as the specification words it: one subscribe request per
    feed mode of the queue, its tokens grouped by exchange. Modes and
    exchanges come in the order in which they first occur. *)
Definition groupedRequest (cid : string) (m : FeedMode)
  (subs : list SubscriptionData) : WebSocketRequest :=
  {| correlationID := cid; action := SUBSCRIBE; mode := m;
     tokenList :=
       map (fun e => {| g_exchangeType := e; tokens := tokensOf m e subs |})
         (distinct (map exchangeType (withMode m subs))) |}.

Definition pendingRequests (now : Z) (queue : list SubscriptionData)
  : list WebSocketRequest :=
  map (fun m =>
         groupedRequest
           ("pending-" ++ string_of_Z (FeedMode_code m) ++ "-"
              ++ string_of_Z now) m queue)
    (distinct (map feedMode queue)).














(** [keyOf] identifies the exchange and the token. *)
Lemma keyOf_inj (a b : SubscriptionData) :
  keyOf a = keyOf b -> exchangeType a = exchangeType b /\ token a = token b.
Proof.
  intros Hk.
  assert (Hs : {| s_exchangeType := exchangeType a; s_token := token a |}
               = {| s_exchangeType := exchangeType b; s_token := token b |})
    by (apply symbolKey_inj; exact Hk).
  now injection Hs.
Qed.

End PendingQueue.

Section PendingQueueClaim.
Import MarketData.
Local Open Scope string_scope.

(** Every entry of the queue has its token in the request of its mode,
    under its exchange. *)
Lemma pendingRequests_complete (now : Z) (queue : list SubscriptionData)
  (sub : SubscriptionData) :
  In sub queue ->
  exists r g,
    In r (pendingRequests now queue) /\ mode r = feedMode sub /\
    In g (tokenList r) /\ g_exchangeType g = exchangeType sub /\
    tokens g = tokensOf (feedMode sub) (exchangeType sub) queue /\
    In (token sub) (tokens g).
Proof.
  intros Hin.
  assert (Hw : In sub (withMode (feedMode sub) queue)).
  { apply filter_In. split; [exact Hin | now apply FeedMode_eqb_eq]. }
  eexists. eexists. split; [|split; [|split; [|split; [|split]]]].
  - unfold pendingRequests. apply in_map_iff. exists (feedMode sub).
    split; [reflexivity|]. apply In_distinct. now apply in_map.
  - reflexivity.
  - simpl. apply in_map_iff. exists (exchangeType sub).
    split; [reflexivity|]. apply In_distinct. now apply in_map.
  - reflexivity.
  - reflexivity.
  - simpl. unfold tokensOf. apply in_map. apply filter_In.
    split; [exact Hin|]. apply andb_true_iff.
    split; [now apply FeedMode_eqb_eq | now apply ExchangeType_eqb_eq].
Qed.

(** No mode has two requests and no request names an exchange twice. *)
Lemma pendingRequests_NoDup (now : Z) (queue : list SubscriptionData) :
  NoDup (map mode (pendingRequests now queue)) /\
  forall r, In r (pendingRequests now queue) ->
    action r = SUBSCRIBE /\
    NoDup (map g_exchangeType (tokenList r)) /\
    forall g, In g (tokenList r) ->
      tokens g = tokensOf (mode r) (g_exchangeType g) queue.
Proof.
  unfold pendingRequests. split.
  - rewrite map_map. simpl. rewrite map_id. apply NoDup_distinct.
  - intros r Hr. apply in_map_iff in Hr as [m [<- _]]. simpl.
    split; [reflexivity|]. split.
    + rewrite map_map. simpl. rewrite map_id. apply NoDup_distinct.
    + intros g Hg. apply in_map_iff in Hg as [e [<- _]]. reflexivity.
Qed.





End PendingQueueClaim.

(** ** The market-data client: resubscribe *)

Section Batching.
Import MarketData.
Local Open Scope string_scope.










End Batching.

Section Resubscribe.
Import MarketData.
Local Open Scope string_scope.

















End Resubscribe.

(** ** The market-data client: what every state of a run satisfies *)

Section RegistryInvariant.
Import MarketData.
Local Open Scope string_scope.








(** After [delete], the key is gone and the other keys are as before. *)
Lemma get_delete {V : Type} (k k' : string) (m : JsMap.t string V) :
  NoDup (JsMap.keys m) ->
  JsMap.get k' (JsMap.delete k m) =
  if String.eqb k' k then None else JsMap.get k' m.
Proof.
  unfold JsMap.keys.
  induction m as [|[a w] m IH]; simpl; intros Hnd.
  - now destruct (String.eqb k' k).
  - inversion Hnd as [|? ? Hnotin Hnd']; subst.
    destruct (String.eqb k a) eqn:Eka.
    + apply String.eqb_eq in Eka. subst a.
      destruct (String.eqb k' k) eqn:Ek; [|reflexivity].
      apply String.eqb_eq in Ek. subst k'.
      apply get_None_not_key. exact Hnotin.
    + simpl. rewrite IH by exact Hnd'.
      destruct (String.eqb k' a) eqn:Ea; [|reflexivity].
      apply String.eqb_eq in Ea. subst a.
      destruct (String.eqb k' k) eqn:Ek; [|reflexivity].
      apply String.eqb_eq in Ek. subst k'.
      rewrite String.eqb_refl in Eka. discriminate.
Qed.









End RegistryInvariant.

(** ** The market-data client: replay, flush and reconnection *)

Section Reconnection.
Import MarketData.
Local Open Scope string_scope.

Variable JSON_parse : string -> Completion TextMessage.




Lemma heartbeat_cleared (st : Client) :
  heartbeatInterval (clearHeartbeat st) = false.
Proof.
  unfold clearHeartbeat. destruct (heartbeatInterval st) eqn:Hh;
    [reflexivity | exact Hh].
Qed.


(** [attemptReconnect] once the attempts are used up. *)
Lemma attemptReconnect_gives_up (st : Client) :
  (maxReconnectAttempts <= reconnectAttempts st)%nat ->
  let st' := attemptReconnect st in
  reconnectAttempts st' = reconnectAttempts st /\
  reconnectTimers st' = reconnectTimers st /\
  emitted st' =
    (emitted st
       ++ [{| channel := "reconnect_failed"; payload := NoPayload |}])%list /\
  connectionState st' = connectionState st /\
  heartbeatInterval st' = heartbeatInterval st /\
  ws st' = ws st /\ sockets st' = sockets st /\
  subscriptions st' = subscriptions st /\
  pendingSubscriptions st' = pendingSubscriptions st /\
  constructorThrows st' = constructorThrows st.
Proof.
  intros Hle. cbv zeta. unfold attemptReconnect.
  rewrite (proj2 (Nat.leb_le _ _) Hle).
  unfold emit. autorewrite with md_frame. repeat split.
Qed.

(** The state in which the ['close'] listener calls [attemptReconnect]. *)
Lemma onClose_unfold (code : Z) (reason : string) (st : Client) :
  exists st0,
    onClose code reason st = attemptReconnect st0 /\
    connectionState st0 = DISCONNECTED /\
    heartbeatInterval st0 = false /\
    emitted st0 =
      (emitted st
         ++ [{| channel := "disconnect";
                payload := CloseInfo code reason |}])%list /\
    reconnectAttempts st0 = reconnectAttempts st /\
    reconnectTimers st0 = reconnectTimers st /\
    ws st0 = ws st /\ sockets st0 = sockets st /\
    subscriptions st0 = subscriptions st /\
    pendingSubscriptions st0 = pendingSubscriptions st /\
    constructorThrows st0 = constructorThrows st.
Proof.
  eexists. split; [reflexivity|].
  unfold emit. autorewrite with md_frame. rewrite heartbeat_cleared.
  repeat split.
Qed.


(** The ['close'] listener once the attempts are used up. *)
Lemma onClose_gives_up (code : Z) (reason : string) (st : Client) :
  (maxReconnectAttempts <= reconnectAttempts st)%nat ->
  let st' := onClose code reason st in
  connectionState st' = DISCONNECTED /\
  reconnectAttempts st' = reconnectAttempts st /\
  reconnectTimers st' = reconnectTimers st /\
  heartbeatInterval st' = false /\
  emitted st' =
    (emitted st
       ++ [{| channel := "disconnect"; payload := CloseInfo code reason |};
           {| channel := "reconnect_failed"; payload := NoPayload |}])%list /\
  ws st' = ws st /\ sockets st' = sockets st /\
  subscriptions st' = subscriptions st /\
  pendingSubscriptions st' = pendingSubscriptions st.
Proof.
  intros Hle. cbv zeta.
  destruct (onClose_unfold code reason st)
    as [st0 [-> [Hc [Hh [He [Ha [Ht [Hw [Hk [Hs [Hp Hct]]]]]]]]]]].
  rewrite <- Ha in Hle.
  destruct (attemptReconnect_gives_up st0 Hle)
    as [-> [-> [-> [-> [-> [-> [-> [-> [-> _]]]]]]]]].
  rewrite He, <- app_assoc. cbn [app]. repeat split; assumption.
Qed.








End Reconnection.

(** ** The market-data client: the claims on replay and on the queue *)

Section ReplayClaim.
Import MarketData.
Local Open Scope string_scope.

Variable JSON_parse : string -> Completion TextMessage.


End ReplayClaim.

Section ReplayExample.
Import MarketData.
Local Open Scope string_scope.

End ReplayExample.

Section QueueClaim.
Import MarketData.
Local Open Scope string_scope.

Variable JSON_parse : string -> Completion TextMessage.


End QueueClaim.

Section QueueExamples.
Import MarketData.
Local Open Scope string_scope.


End QueueExamples.

(** ** The order-status client *)

Section OrderStatusClaim.
Import OrderStatus.
Local Open Scope string_scope.

(** The state of a client whose first socket has opened. *)
Lemma connected_client (parse : string -> Completion OrderStatusResponse)
  (jwt : string) :
  run parse (new jwt false) [CallConnect; SocketOpen 0] =
  Some {| jwtToken := jwt; ws := Some 0%nat; connectionState := CONNECTED;
          reconnectAttempts := 0; heartbeatInterval := false;
          pingInterval := true; debug := false; clientCode := "";
          sockets := [{| readyState := WS_OPEN;
                         authorization := "Bearer " ++ jwt;
                         pings := 0; closeCalls := 0 |}];
          emitted := [{| channel := "connected"; payload := NoPayload |}];
          console := []; reconnectTimers := 0;
          constructorThrows := false |}.
Proof. reflexivity. Qed.

Lemma run_app (parse : string -> Completion OrderStatusResponse)
  (a b : list Input) (st st1 : Client) :
  run parse st a = Some st1 -> run parse st (a ++ b) = run parse st1 b.
Proof.
  revert st. induction a as [|i a IH]; intros st; simpl.
  - now intros [= ->].
  - destruct (enabled i st); [apply IH | discriminate].
Qed.

(** C8, the defect. A connected client receives a frame whose status
    code is 401, 403 or 429. It emits [error] and disconnects at once,
    closing the socket; but when that socket then reports its close, the
    ['close'] listener schedules a reconnect all the same, and the timer
    opens a second socket with the Authorization header of the first:
    the failed authorization is retried with the same token. *)
Theorem auth_failure_retried_with_same_token (jwt frame : string)
  (m : OrderStatusResponse) (code : Z) (reason : string) :
  In (status_code m) ["401"; "403"; "429"] -> frame <> "pong" ->
  exists st,
    run (fun _ => Normal m) (new jwt false)
      [CallConnect; SocketOpen 0; SocketMessage 0 (Text frame);
       SocketClose 0 code reason; ReconnectTimer] = Some st /\
    emitted st =
      [{| channel := "connected"; payload := NoPayload |};
       {| channel := "error";
          payload := ErrorInfo (status_code m)
                       (if nonEmpty (error_message m)
                        then error_message m else "Unknown error") |};
       {| channel := "disconnect"; payload := UserDisconnect |};
       {| channel := "disconnect"; payload := CloseInfo code reason |};
       {| channel := "reconnecting"; payload := Attempt 1 |}] /\
    map authorization (sockets st) = ["Bearer " ++ jwt; "Bearer " ++ jwt] /\
    map closeCalls (sockets st) = [1; 0]%nat /\
    ws st = Some 1%nat /\ connectionState st = CONNECTING /\
    jwtToken st = jwt.
Proof.
  intros Hin Hpong. apply String.eqb_neq in Hpong.
  destruct m as [u sc os em od]. cbn [status_code error_message] in *.
  destruct (os =? OrderStatusCode_CONNECTED) eqn:Hos;
    destruct Hin as [<- | [<- | [<- | []]]];
    (eexists; split;
     [ change [CallConnect; SocketOpen 0; SocketMessage 0 (Text frame);
               SocketClose 0 code reason; ReconnectTimer]
         with ([CallConnect; SocketOpen 0]
                 ++ [SocketMessage 0 (Text frame); SocketClose 0 code reason;
                     ReconnectTimer])%list;
       rewrite (run_app _ _ _ _ _ (connected_client _ jwt));
       cbn [run enabled socketState nth_error sockets option_map readyState];
       cbn [step]; unfold onMessage; rewrite Hpong;
       cbn [bind try_catch status_code order_status]; rewrite Hos;
       vm_compute; reflexivity
     | repeat split ]).
Qed.

(** C8 at the failing input: the server answers the expired token with
    status 401. *)
Lemma auth_failure_retried_with_same_token_witness :
  let m := {| user_id := "A123"; status_code := "401"; order_status := "";
              error_message := "Invalid Header"; orderData := None |} in
  exists st,
    run (fun _ => Normal m) (new "expired-token" false)
      [CallConnect; SocketOpen 0; SocketMessage 0 (Text "status 401");
       SocketClose 0 1005 ""; ReconnectTimer] = Some st /\
    map authorization (sockets st)
      = ["Bearer expired-token"; "Bearer expired-token"] /\
    map channel (emitted st)
      = ["connected"; "error"; "disconnect"; "disconnect"; "reconnecting"].
Proof.
  intros m.
  destruct (auth_failure_retried_with_same_token "expired-token"
              "status 401" m 1005 "" (or_introl eq_refl)
              ltac:(discriminate))
    as [st [Hrun [Hem [Hauth _]]]].
  exists st. split; [exact Hrun|]. split; [exact Hauth|].
  rewrite Hem. reflexivity.
Defined.
End OrderStatusClaim.
